(** * Volshell: the interactive memory-inspection plugin

    A shallow embedding of [volatility/cli/volshell/shellplugin.py] and the
    properties of its dump formatter, ASCII panel, disassembly dispatcher,
    layer selector and type inspector.

    Conventions of the embedding:
    - Python [int] is [Z] (offsets, addresses) or [N] (unpacked unsigned
      values); [bytes] is [list byte]; [str] is [string];
    - [print(a, b, ...)] appends one line, the arguments joined by single
      spaces, to the list of lines written to standard output;
    - a call that can raise returns a [result]; a command returns the lines
      it printed together with the exception that ended it, if any;
    - the object [self] and the module globals it touches ([has_capstone],
      [sys.ps1]) form the record [session];
    - [context.layers], the Intel layer classes and the capstone decoder
      live outside this file of the repository; they are parameters. *)

From Stdlib Require Import ZArith NArith String Ascii List Lia ZifyNat ZifyN.
From Stdlib.Strings Require Import Byte.
From stdpp Require Import base option list gmap strings.
From Equations Require Import Equations.

Local Open Scope string_scope.

(** ** Python values and built-ins *)

(** Exceptions the modelled code can raise. [LayerException] stands for
    whatever the external layer's [read] raises. *)
Inductive exn : Type :=
  | AttributeError
  | KeyError (key : string)
  | struct_error
  | binascii_Error
  | LayerException (message : string).

Inductive result (A : Type) : Type :=
  | Ok (a : A)
  | Raise (e : exn).
Arguments Ok {A} a.
Arguments Raise {A} e.

Definition bind {A B : Type} (r : result A) (k : A -> result B) : result B :=
  match r with
  | Ok a => k a
  | Raise e => Raise e
  end.

Notation "x <- r ;; k" := (bind r (fun x => k))
  (at level 100, r at next level, right associativity).

(** A list comprehension whose body can raise: the first exception ends it. *)
Fixpoint comprehension {A B : Type} (f : A -> result B) (l : list A) : result (list B) :=
  match l with
  | [] => Ok []
  | x :: l' => y <- f x ;; ys <- comprehension f l' ;; Ok (y :: ys)
  end.

(** [sep.join(parts)] *)
Fixpoint join (sep : string) (parts : list string) : string :=
  match parts with
  | [] => ""
  | [s] => s
  | s :: rest => s +:+ sep +:+ join sep rest
  end.

(** [c * n] for a one-character string [c] *)
Fixpoint str_repeat (c : ascii) (n : nat) : string :=
  match n with
  | O => ""
  | S n' => String c (str_repeat c n')
  end.

(** [print(a, b, ...)]: the line written, without its newline. *)
Definition print_line (args : list string) : string := join " " args.

(** Lower-case hexadecimal digit of a value below 16. *)
Definition hex_digit (d : N) : ascii :=
  if (d <? 10)%N then ascii_of_N (48 + d) else ascii_of_N (87 + d).

(** The digits of [format(n, "x")], most significant first. [fuel] bounds the
    number of digits. *)
Fixpoint hex_digits (fuel : nat) (n : N) : string :=
  match fuel with
  | O => ""
  | S fuel' =>
      if (n <? 16)%N then String (hex_digit n) ""
      else hex_digits fuel' (n / 16) +:+ String (hex_digit (n mod 16)) ""
  end.

(** [format(n, "x")] for [n >= 0]: a number has at most one hexadecimal digit
    per bit. *)
Definition format_x (n : N) : string :=
  hex_digits (S (N.to_nat (N.log2 n))) n.

(** [("{:0" + str(width) + "x}").format(n)] for [n >= 0]. *)
Definition format_0x (width : nat) (n : N) : string :=
  let s := format_x n in
  str_repeat "0" (width - String.length s) +:+ s.

(** [hex(z)] *)
Definition hex (z : Z) : string :=
  match z with
  | Zneg p => "-0x" +:+ format_x (Npos p)
  | _ => "0x" +:+ format_x (Z.to_N z)
  end.

(** ["%x" % z] *)
Definition percent_x (z : Z) : string :=
  match z with
  | Zneg p => "-" +:+ format_x (Npos p)
  | _ => format_x (Z.to_N z)
  end.

(** Value of a hexadecimal digit, as [binascii.unhexlify] reads it (both
    cases of the letters). *)
Definition hex_val (c : ascii) : option N :=
  let n := N_of_ascii c in
  if ((48 <=? n) && (n <=? 57))%N then Some (n - 48)%N
  else if ((97 <=? n) && (n <=? 102))%N then Some (n - 87)%N
  else if ((65 <=? n) && (n <=? 70))%N then Some (n - 55)%N
  else None.

(** [binascii.unhexlify(s)]: two digits per byte; an odd length or a
    character that is no hexadecimal digit raises [binascii.Error]. *)
Fixpoint unhexlify (s : string) : result (list byte) :=
  match s with
  | "" => Ok []
  | String hi (String lo rest) =>
      match hex_val hi, hex_val lo with
      | Some h, Some l =>
          match Byte.of_N (16 * h + l) with
          | Some b => bs <- unhexlify rest ;; Ok (b :: bs)
          | None => Raise binascii_Error
          end
      | _, _ => Raise binascii_Error
      end
  | String _ "" => Raise binascii_Error
  end.

(** ** struct *)

(** The format strings the display commands pass: ["B"], ["H"], ["I"], ["Q"]. *)
Inductive format_string : Type := fmt_B | fmt_H | fmt_I | fmt_Q.

(** [struct.calcsize(format_string)] *)
Definition calcsize (f : format_string) : nat :=
  match f with
  | fmt_B => 1
  | fmt_H => 2
  | fmt_I => 4
  | fmt_Q => 8
  end.

(** [sys.byteorder]: the formats carry no byte-order prefix, so [struct] uses
    the byte order of the machine. *)
Inductive byteorder : Type := little | big.

Fixpoint le_value (bs : list byte) : N :=
  match bs with
  | [] => 0
  | b :: bs' => Byte.to_N b + 256 * le_value bs'
  end.

(** [struct.unpack(format_string, x)[0]]: [struct.error] unless [x] has
    exactly [calcsize] bytes. *)
Definition unpack (order : byteorder) (f : format_string) (x : list byte) : result N :=
  if Nat.eqb (length x) (calcsize f) then
    Ok (match order with
        | little => le_value x
        | big => le_value (rev x)
        end)
  else Raise struct_error.

(** ** The ASCII panel *)

(** [chr(x) if 32 < x < 127 else '.'] *)
Definition ascii_char (x : byte) : ascii :=
  if ((32 <? Byte.to_N x) && (Byte.to_N x <? 127))%N then ascii_of_byte x else "."%char.

(** [Volshell._ascii_bytes]: the argument is a string of hexadecimal digits. *)
Definition _ascii_bytes (bytes : string) : result string :=
  bs <- unhexlify bytes ;; Ok (string_of_list_ascii (map ascii_char bs)).

(** ** The dump formatter *)

Definition nonempty (x : list byte) : bool :=
  match x with
  | [] => false
  | _ :: _ => true
  end.

(** The cells of one row:
    [[current_line[chunk_size * i:chunk_size * (i + 1)] for i in range(16 // chunk_size)]]
    without the empty ones. *)
Definition data_blocks (chunk_size : nat) (current_line : list byte) : list (list byte) :=
  List.filter nonempty
    (map (fun i => take chunk_size (drop (chunk_size * i) current_line))
         (seq 0 (16 / chunk_size))).

(** One hexadecimal cell: the unpacked value, zero-padded to two digits per
    byte. *)
Definition hex_cell (order : byteorder) (f : format_string) (x : list byte) : result string :=
  v <- unpack order f x ;; Ok (format_0x (2 * calcsize f) v).

Definition valid_data (order : byteorder) (f : format_string) (current_line : list byte)
  : result (list string) :=
  comprehension (hex_cell order f) (data_blocks (calcsize f) current_line).

Definition padding_data (chunk_size : nat) (current_line : list byte) : list string :=
  replicate ((16 - length current_line) / chunk_size) (str_repeat " " (2 * chunk_size)).

Definition connector (chunk_size : nat) : string :=
  if (chunk_size <? 2)%nat then "" else " ".

Definition ascii_data (ascii : bool) (chunk_size : nat) (valid : list string) : result string :=
  if ascii then
    parts <- comprehension _ascii_bytes valid ;; Ok (join (connector chunk_size) parts)
  else Ok "".

(** The body of the loop of [_display_data] after [offset += 16]: the line it
    prints for [current_line], or the exception raised before the print. *)
Definition display_row (order : byteorder) (f : format_string) (ascii : bool)
    (offset : Z) (current_line : list byte) : result string :=
  let chunk_size := calcsize f in
  valid <- valid_data order f current_line ;;
  let hex_data := join " " (valid ++ padding_data chunk_size current_line) in
  panel <- ascii_data ascii chunk_size valid ;;
  Ok (print_line [hex offset; "  "; hex_data; "  "; panel]).

(** The [while remaining_data:] loop: the lines printed and the exception
    that ended the loop, if any. *)
Equations? display_loop (order : byteorder) (f : format_string) (ascii : bool)
    (offset : Z) (remaining_data : list byte) : list string * option exn
    by wf (length remaining_data) lt :=
  display_loop order f ascii offset [] := ([], None);
  display_loop order f ascii offset (b :: rest)
    with display_row order f ascii (offset + 16) (take 16 (b :: rest)) := {
    | Raise e := ([], Some e);
    | Ok line :=
        let r := display_loop order f ascii (offset + 16) (drop 16 (b :: rest)) in
        (line :: fst r, snd r) }.
Proof. rewrite length_drop. simpl. lia. Qed.

(** [Volshell._display_data] *)
Definition _display_data (order : byteorder) (offset : Z) (remaining_data : list byte)
    (f : format_string) (ascii : bool) : list string * option exn :=
  let chunk_size := calcsize f in
  let data_length := length remaining_data in
  display_loop order f ascii offset
    (take (data_length - data_length mod chunk_size) remaining_data).

(** ** The session: layers, decoder, current layer *)

(** What [isinstance] tells about a layer object: an instance of
    [intel.Intel32e] (a subclass of [intel.Intel]), an instance of
    [intel.Intel] that is no [Intel32e], or anything else. *)
Inductive layer_class : Type := Intel32e | Intel | NonIntel.

(** A layer of [context.layers]: its class and its [read(offset, count)]. *)
Record layer : Type := {
  layer_type : layer_class;
  read : Z -> Z -> result (list byte)
}.

(** capstone: architectures, modes, decoder objects and instructions. *)
Inductive cs_arch : Type := CS_ARCH_X86 | CS_ARCH_ARM | CS_ARCH_ARM64.
Inductive cs_mode : Type := CS_MODE_32 | CS_MODE_64 | CS_MODE_ARM.

Record Cs : Type := { arch : cs_arch; mode : cs_mode }.

Record CsInsn : Type := { address : Z; mnemonic : string; op_str : string }.

(** [Cs.disasm(code, offset)] for each decoder object. *)
Definition decoder : Type := Cs -> list byte -> Z -> list CsInsn.

(** [self] and the globals of the module. [capstone] is the imported module:
    [None] when the import failed. [_current_layer] is [None] until the
    attribute is first assigned. *)
Record session : Type := {
  sys_byteorder : byteorder;
  capstone : option decoder;
  config_primary : string;
  layers : gmap string layer;
  _current_layer : option string;
  ps1 : string
}.

(** [has_capstone]: whether [import capstone] succeeded. *)
Definition has_capstone (self : session) : bool :=
  match capstone self with
  | Some _ => true
  | None => false
  end.

(** The property [current_layer]. *)
Definition current_layer (self : session) : result string :=
  match _current_layer self with
  | Some name => Ok name
  | None => Raise AttributeError
  end.

Definition prompt (name : string) : string := "(" +:+ name +:+ ") >>> ".

(** The assignments at the start of [run]. *)
Definition run_start (self : session) : session :=
  {| sys_byteorder := sys_byteorder self;
     capstone := capstone self;
     config_primary := config_primary self;
     layers := layers self;
     _current_layer := Some (config_primary self);
     ps1 := prompt (config_primary self) |}.

(** [layer_name or self.current_layer]: [None] and the empty string are
    false. *)
Definition layer_or_current (self : session) (layer_name : option string) : result string :=
  match layer_name with
  | Some (String c rest) => Ok (String c rest)
  | _ => current_layer self
  end.

(** [self.context.layers[name]] *)
Definition get_layer (self : session) (name : string) : result layer :=
  match layers self !! name with
  | Some l => Ok l
  | None => Raise (KeyError name)
  end.

(** [Volshell._read_data] *)
Definition _read_data (self : session) (offset count : Z) (layer_name : option string)
  : result (list byte) :=
  name <- layer_or_current self layer_name ;;
  l <- get_layer self name ;;
  read l offset count.

(** [Volshell.change_layer] *)
Definition change_layer (layer_name : option string) (self : session) : session :=
  let layer_name :=
    match layer_name with
    | Some (String c rest) => String c rest
    | _ => config_primary self
    end in
  {| sys_byteorder := sys_byteorder self;
     capstone := capstone self;
     config_primary := config_primary self;
     layers := layers self;
     _current_layer := Some layer_name;
     ps1 := prompt layer_name |}.

(** The four display commands: read, then format with their format string. *)
Definition display (f : format_string) (self : session) (offset count : Z)
    (layer_name : option string) : list string * option exn :=
  match _read_data self offset count layer_name with
  | Raise e => ([], Some e)
  | Ok remaining_data => _display_data (sys_byteorder self) offset remaining_data f true
  end.

Definition display_bytes := display fmt_B.
Definition display_quadwords := display fmt_Q.
Definition display_doublewords := display fmt_I.
Definition display_words := display fmt_H.

(** ** The disassembly dispatcher *)

Definition unavailable_notice : string :=
  "Capstone not available - please install it to use the disassemble command".

(** The dictionary [disasm_types]. *)
Definition disasm_types : gmap string Cs :=
  <["intel" := {| arch := CS_ARCH_X86; mode := CS_MODE_32 |}]>
  (<["intel64" := {| arch := CS_ARCH_X86; mode := CS_MODE_64 |}]>
  (<["arm" := {| arch := CS_ARCH_ARM; mode := CS_MODE_ARM |}]>
  (<["arm64" := {| arch := CS_ARCH_ARM64; mode := CS_MODE_ARM |}]> ∅))).

Definition tab : string := String (ascii_of_nat 9) "".

(** ["0x%x:\t%s\t%s" % (i.address, i.mnemonic, i.op_str)] *)
Definition insn_line (i : CsInsn) : string :=
  "0x" +:+ percent_x (address i) +:+ ":" +:+ tab +:+ mnemonic i +:+ tab +:+ op_str i.

(** The [if]/[elif] on the class of the layer: it assigns [architecture]
    whenever the layer is an Intel layer. *)
Definition resolve_architecture (c : layer_class) (architecture : option string)
  : option string :=
  match c with
  | Intel32e => Some "intel64"
  | Intel => Some "intel"
  | NonIntel => architecture
  end.

(** [Volshell.disassemble] *)
Definition disassemble (self : session) (offset count : Z) (layer_name : option string)
    (architecture : option string) : list string * option exn :=
  match _read_data self offset count layer_name with
  | Raise e => ([], Some e)
  | Ok remaining_data =>
      match capstone self with
      | None => ([unavailable_notice], None)
      | Some cs =>
          match (name <- layer_or_current self layer_name ;; get_layer self name) with
          | Raise e => ([], Some e)
          | Ok l =>
              match resolve_architecture (layer_type l) architecture with
              | None => ([], None)
              | Some a =>
                  match disasm_types !! a with
                  | None => ([], Some (KeyError a))
                  | Some md => (map insn_line (cs md remaining_data offset), None)
                  end
              end
          end
      end
  end.

(** ** The type inspector *)

(** [object.vol.members]: a dictionary from member name to relative offset
    and type name ([member_type.vol.type_name]), in insertion order. *)
Definition members_dict : Type := list (string * (Z * string)).

(** [d[key]] *)
Fixpoint dict_get (d : members_dict) (key : string) : result (Z * string) :=
  match d with
  | [] => Raise (KeyError key)
  | (k, v) :: d' => if String.eqb k key then Ok v else dict_get d' key
  end.

(** The first loop of [display_type] over the keys [keys]: the running
    maxima [(longest_member, longest_offset)]. *)
Fixpoint longest (d : members_dict) (keys : list string) (acc : nat * nat)
  : result (nat * nat) :=
  match keys with
  | [] => Ok acc
  | member :: keys' =>
      v <- dict_get d member ;;
      longest d keys'
        (Nat.max (String.length member) (fst acc),
         Nat.max (String.length (hex (fst v))) (snd acc))
  end.

Definition member_line (longest_member longest_offset : nat) (member : string)
    (v : Z * string) : string :=
  let relative_offset := fst v in
  let len_offset := String.length (hex relative_offset) in
  let len_member := String.length member in
  print_line [str_repeat " " (longest_offset - len_offset); hex relative_offset;
              tab +:+ tab; member; str_repeat " " (longest_member - len_member);
              tab +:+ tab; snd v].

(** The second loop of [display_type]. *)
Fixpoint member_lines (d : members_dict) (keys : list string)
    (longest_member longest_offset : nat) : list string * option exn :=
  match keys with
  | [] => ([], None)
  | member :: keys' =>
      match dict_get d member with
      | Raise e => ([], Some e)
      | Ok v =>
          let r := member_lines d keys' longest_member longest_offset in
          (member_line longest_member longest_offset member v :: fst r, snd r)
      end
  end.

(** [Volshell.display_type] *)
Definition display_type (members : members_dict) : list string * option exn :=
  match longest members (map fst members) (0, 0) with
  | Raise e => ([], Some e)
  | Ok (longest_member, longest_offset) =>
      member_lines members (map fst members) longest_member longest_offset
  end.

(** ** Commands of the interactive session *)

Inductive command : Type :=
  | cl (layer_name : option string)
  | db (offset count : Z) (layer_name : option string)
  | dw (offset count : Z) (layer_name : option string)
  | dd (offset count : Z) (layer_name : option string)
  | dq (offset count : Z) (layer_name : option string)
  | dis (offset count : Z) (layer_name architecture : option string)
  | dt (members : members_dict).

(** One command: the session after it and what it printed or raised. *)
Definition exec (c : command) (self : session) : session * (list string * option exn) :=
  match c with
  | cl layer_name => (change_layer layer_name self, ([], None))
  | db offset count layer_name => (self, display_bytes self offset count layer_name)
  | dw offset count layer_name => (self, display_words self offset count layer_name)
  | dd offset count layer_name => (self, display_doublewords self offset count layer_name)
  | dq offset count layer_name => (self, display_quadwords self offset count layer_name)
  | dis offset count layer_name architecture =>
      (self, disassemble self offset count layer_name architecture)
  | dt members => (self, display_type members)
  end.

(** The session after a sequence of commands. *)
Definition exec_all (cs : list command) (self : session) : session :=
  fold_left (fun s c => fst (exec c s)) cs self.

Definition is_switch (c : command) : bool :=
  match c with
  | cl _ => true
  | _ => false
  end.

(** ** Definitions used to state the properties *)

(** The [k] low hexadecimal digits of [n], most significant first. *)
Fixpoint fixed_hex (k : nat) (n : N) : string :=
  match k with
  | O => ""
  | S k' => fixed_hex k' (n / 16) +:+ String (hex_digit (n mod 16)) ""
  end.

(** [binascii.hexlify]: two lower-case digits per byte. *)
Fixpoint hexlify (bs : list byte) : string :=
  match bs with
  | [] => ""
  | b :: bs' =>
      String (hex_digit (Byte.to_N b / 16))
        (String (hex_digit (Byte.to_N b mod 16)) (hexlify bs'))
  end.

(** The bytes of a cell in the order of the digits of its value: reversed on
    a little-endian machine. *)
Definition value_order (order : byteorder) (x : list byte) : list byte :=
  match order with
  | little => rev x
  | big => x
  end.

(** The panel text of one cell. *)
Definition panel_text (bs : list byte) : string :=
  string_of_list_ascii (map ascii_char bs).

(** The first [q] cells of [chunk_size] bytes of a row. *)
Fixpoint chunks (chunk_size q : nat) (line : list byte) : list (list byte) :=
  match q with
  | O => []
  | S q' => take chunk_size line :: chunks chunk_size q' (drop chunk_size line)
  end.

(** The hexadecimal cells of a row of whole cells. *)
Definition row_cells (order : byteorder) (f : format_string) (line : list byte) : list string :=
  map (fun c => hexlify (value_order order c))
      (chunks (calcsize f) (length line / calcsize f) line).

(** The ASCII panel of a row of whole cells. *)
Definition row_panel (order : byteorder) (f : format_string) (ascii : bool)
    (line : list byte) : string :=
  if ascii then
    join (connector (calcsize f))
      (map (fun c => panel_text (value_order order c))
           (chunks (calcsize f) (length line / calcsize f) line))
  else "".

(** The line printed for a row of whole cells under the label [label]. *)
Definition row_text (order : byteorder) (f : format_string) (ascii : bool)
    (label : Z) (line : list byte) : string :=
  print_line [hex label; "  ";
              join " " (row_cells order f line ++ padding_data (calcsize f) line);
              "  "; row_panel order f ascii line].

(** A row is made of whole cells when its length is a multiple of the cell
    size and at most 16. *)
Definition whole_cells (f : format_string) (line : list byte) : Prop :=
  length line mod calcsize f = 0 /\ length line <= 16.

(** The lines of [n] consecutive rows of [data], the first one starting at
    [offset]. *)
Fixpoint rows_text (order : byteorder) (f : format_string) (ascii : bool)
    (n : nat) (offset : Z) (data : list byte) : list string :=
  match n with
  | O => []
  | S n' =>
      row_text order f ascii (offset + 16) (take 16 data)
      :: rows_text order f ascii n' (offset + 16) (drop 16 data)
  end.

(** What [_display_data] keeps of its input. *)
Definition truncated (f : format_string) (data : list byte) : list byte :=
  take (length data - length data mod calcsize f) data.

(** Twenty bytes: one full row and a short one. *)
Definition dump_20_bytes : list byte :=
  [x41; x42; x43; x44; x45; x46; x47; x48; x49; x4a; x4b; x4c; x4d; x4e; x4f; x50;
   x51; x52; x53; x54].

(** [b'\x41\x00\x00\x00' * 4] *)
Definition example_data : list byte :=
  [x41; x00; x00; x00; x41; x00; x00; x00; x41; x00; x00; x00; x41; x00; x00; x00].

(** A decoder for the examples: one instruction at the offset, whose
    mnemonic names the mode it was decoded in. *)
Definition mode_decoder : decoder := fun cs code offset =>
  [{| address := offset;
      mnemonic := match mode cs with
                  | CS_MODE_32 => "x86-32"
                  | CS_MODE_64 => "x86-64"
                  | CS_MODE_ARM => "arm"
                  end;
      op_str := "" |}].

(** A layer of class [c] whose every read returns two bytes. *)
Definition nop_layer (c : layer_class) : layer :=
  {| layer_type := c; read := fun _ _ => Ok [x90; x90] |}.

(** A session after [run]: an [Intel32e] primary layer and a plain file
    layer. *)
Definition example_session (cs : option decoder) : session :=
  run_start
    {| sys_byteorder := little;
       capstone := cs;
       config_primary := "primary";
       layers := <["primary" := nop_layer Intel32e]> (<["file" := nop_layer NonIntel]> ∅);
       _current_layer := None;
       ps1 := ">>> " |}.

(** [len(member)] and [len(hex(relative_offset))] of a dictionary entry. *)
Definition name_length (m : string * (Z * string)) : nat := String.length (fst m).

Definition offset_length (m : string * (Z * string)) : nat :=
  String.length (hex (fst (snd m))).

(** The line of a member when the columns are [longest_offset] and
    [longest_member] wide: the padding of the offset comes before it, the
    padding of the name after it, and [print] puts one space between its
    arguments. *)
Definition aligned_line (longest_member longest_offset : nat)
    (m : string * (Z * string)) : string :=
  str_repeat " " (longest_offset - offset_length m) +:+ " " +:+ hex (fst (snd m))
  +:+ " " +:+ tab +:+ tab +:+ " "
  +:+ fst m +:+ " " +:+ str_repeat " " (longest_member - name_length m)
  +:+ " " +:+ tab +:+ tab +:+ " " +:+ snd (snd m).

(** Two members whose names and offsets differ in length. *)
Definition example_members : members_dict :=
  [("a", (0%Z, "int")); ("bb", (16%Z, "char"))].

(** ** The help command *)

(** What [help] asks of an object of the environment: its [__doc__] and
    whether it is callable. *)
Record item : Type := { doc : option string; callable : bool }.

(** [item.__doc__] as a condition: [None] and the empty string are false. *)
Definition documented (i : item) : bool :=
  match doc i with
  | Some (String _ _) => true
  | _ => false
  end.

(** ["{}".format(item.__doc__)] *)
Definition doc_text (i : item) : string :=
  match doc i with
  | Some d => d
  | None => "None"
  end.

Definition newline : string := String (ascii_of_nat 10) "".

(** The first loop of [help] over the items of the environment: the lines it
    prints and the list [variables] it leaves. *)
Fixpoint help_methods (locals : list (string * item)) (variables : list string)
  : list string * list string :=
  match locals with
  | [] => ([], variables)
  | (name, i) :: rest =>
      if documented i && callable i then
        let r := help_methods rest variables in
        (("* " +:+ name) :: ("    " +:+ doc_text i) :: fst r, snd r)
      else help_methods rest (variables ++ [name])
  end.

(** [Volshell.help], on the environment [locals]. *)
Definition help (locals : list (string * item)) : list string :=
  let r := help_methods locals [] in
  [newline +:+ "Methods:"] ++ fst r ++ [newline +:+ "Variables:"]
  ++ map (fun var => "  " +:+ var) (snd r).

(** A bound method of [Volshell] with its docstring. *)
Definition method (d : string) : item := {| doc := Some d; callable := true |}.

(** [Volshell.construct_locals]. The context object and whether the plugin
    object is callable come from classes outside this file. *)
Definition construct_locals (context : item) (self_callable : bool) : list (string * item) :=
  let display_type :=
    method "Display Type describes the members of a particular object in alphabetical order" in
  let display_bytes := method "Displays byte values and ASCII characters" in
  let display_words :=
    method "Displays word values (2 bytes) and corresponding ASCII characters" in
  let display_doublewords :=
    method "Displays double-word values (4 bytes) and corresponding ASCII characters" in
  let display_quadwords :=
    method "Displays quad-word values (8 bytes) and corresponding ASCII characters" in
  let disassemble := method "Disassembles a number of instructions from the code at offset" in
  let change_layer := method "Changes the current default layer" in
  let help := method "Describes the available commands" in
  [("dt", display_type); ("display_type", display_type);
   ("db", display_bytes); ("display_bytes", display_bytes);
   ("dw", display_words); ("display_words", display_words);
   ("dd", display_doublewords); ("display_doublewords", display_doublewords);
   ("dq", display_quadwords); ("display_quadwords", display_quadwords);
   ("dis", disassemble); ("disassemble", disassemble);
   ("cl", change_layer); ("change_layer", change_layer);
   ("context", context);
   ("self", {| doc := Some "Shell environment to directly interact with a memory image.";
               callable := self_callable |});
   ("hh", help); ("help", help)].

(** ** Further definitions used to state properties *)

(** What no command changes: the byte order, the decoder, the configured
    primary layer and the layers. *)
Definition same_environment (s s' : session) : Prop :=
  sys_byteorder s' = sys_byteorder s
  /\ capstone s' = capstone s
  /\ config_primary s' = config_primary s
  /\ layers s' = layers s.


(** * Properties *)

(** ** Strings *)

Lemma append_cons (c : ascii) (s t : string) : String c s +:+ t = String c (s +:+ t).
Proof. reflexivity. Qed.

Lemma length_append (s t : string) :
  String.length (s +:+ t) = String.length s + String.length t.
Proof. induction s as [|c s IH]; simpl; [reflexivity | now rewrite IH]. Qed.

Lemma append_nil_r (s : string) : s +:+ "" = s.
Proof. induction s as [|c s IH]; [reflexivity | rewrite !append_cons; f_equal; exact IH]. Qed.

Lemma append_assoc (s t u : string) : (s +:+ t) +:+ u = s +:+ (t +:+ u).
Proof. induction s as [|c s IH]; [reflexivity | rewrite !append_cons; f_equal; exact IH]. Qed.

Lemma length_str_repeat (c : ascii) (n : nat) : String.length (str_repeat c n) = n.
Proof. induction n as [|n IH]; simpl; [reflexivity | now rewrite IH]. Qed.

Lemma str_repeat_snoc (c : ascii) (n : nat) :
  str_repeat c (S n) = str_repeat c n +:+ String c "".
Proof.
  induction n as [|n IH]; [reflexivity |].
  change (str_repeat c (S (S n))) with (String c (str_repeat c (S n))).
  rewrite IH at 1. reflexivity.
Qed.

(** ** Hexadecimal digits *)

Lemma length_fixed_hex (k : nat) (n : N) : String.length (fixed_hex k n) = k.
Proof.
  revert n. induction k as [|k IH]; intros n; simpl; [reflexivity |].
  rewrite length_append, IH. simpl. lia.
Qed.

Lemma fixed_hex_zero (k : nat) : fixed_hex k 0 = str_repeat "0" k.
Proof.
  induction k as [|k IH]; [reflexivity |].
  rewrite str_repeat_snoc, <- IH. reflexivity.
Qed.

Lemma pow16_succ (k : nat) : (16 ^ N.of_nat (S k) = 16 * 16 ^ N.of_nat k)%N.
Proof. rewrite Nat2N.inj_succ, N.pow_succ_r'. reflexivity. Qed.

(** With enough fuel, the digits of [n] are its [k] low digits without the
    leading zeros. *)
Lemma hex_digits_fixed (fuel : nat) :
  forall (n : N) (k : nat),
    (n < 16 ^ N.of_nat fuel)%N -> (n < 16 ^ N.of_nat k)%N -> 1 <= k ->
    exists z, fixed_hex k n = str_repeat "0" z +:+ hex_digits fuel n
              /\ z + String.length (hex_digits fuel n) = k.
Proof.
  induction fuel as [|fuel IH]; intros n k Hfuel Hk Hpos.
  - assert (n = 0%N) as -> by (simpl in Hfuel; lia).
    exists k. rewrite fixed_hex_zero, append_nil_r. split; [reflexivity | simpl; lia].
  - destruct k as [|k]; [lia |].
    simpl. destruct (N.ltb_spec n 16) as [Hlt|Hge].
    + exists k. rewrite N.div_small, N.mod_small, fixed_hex_zero by assumption.
      split; [reflexivity | simpl; lia].
    + rewrite pow16_succ in Hfuel, Hk.
      destruct (IH (n / 16)%N k) as [z [Hz Hlen]].
      * apply N.Div0.div_lt_upper_bound. assumption.
      * apply N.Div0.div_lt_upper_bound. assumption.
      * destruct k as [|k]; [simpl in Hk |]; lia.
      * exists z. rewrite Hz, append_assoc, length_append. split; [reflexivity |].
        simpl. lia.
Qed.

Lemma format_x_fuel (n : N) : (n < 16 ^ N.of_nat (S (N.to_nat (N.log2 n))))%N.
Proof.
  rewrite Nat2N.inj_succ, N2Nat.id.
  destruct n as [|p]; [reflexivity |].
  apply N.lt_le_trans with (2 ^ N.succ (N.log2 (N.pos p)))%N.
  - apply N.log2_spec. reflexivity.
  - apply N.pow_le_mono_l. lia.
Qed.

(** A value that fits in [k] digits is printed as exactly its [k] low
    digits. *)
Lemma format_0x_fixed (k : nat) (n : N) :
  (n < 16 ^ N.of_nat k)%N -> 1 <= k -> format_0x k n = fixed_hex k n.
Proof.
  intros Hk Hpos. unfold format_0x, format_x.
  destruct (hex_digits_fixed _ n k (format_x_fuel n) Hk Hpos) as [z [Hz Hlen]].
  rewrite Hz. f_equal. f_equal. lia.
Qed.

Lemma hexlify_app (xs ys : list byte) : hexlify (xs ++ ys) = hexlify xs +:+ hexlify ys.
Proof. induction xs as [|x xs IH]; simpl; [reflexivity | now rewrite IH]. Qed.

Lemma length_hexlify (bs : list byte) : String.length (hexlify bs) = 2 * length bs.
Proof. induction bs as [|b bs IH]; simpl; [reflexivity | rewrite IH; lia]. Qed.

Lemma byte_bound (b : byte) : (Byte.to_N b < 256)%N.
Proof. pose proof (Byte.to_N_bounded b). lia. Qed.

Lemma le_value_bound (bs : list byte) : (le_value bs < 16 ^ N.of_nat (2 * length bs))%N.
Proof.
  induction bs as [|b bs IH]; [reflexivity |].
  cbn [le_value length]. replace (2 * S (length bs)) with (S (S (2 * length bs))) by lia.
  rewrite !pow16_succ. pose proof (byte_bound b). lia.
Qed.

Lemma low_digit (b v : N) : ((b + 256 * v) mod 16 = b mod 16)%N.
Proof.
  replace (b + 256 * v)%N with (b + (16 * v) * 16)%N by lia.
  apply N.Div0.mod_add.
Qed.

Lemma drop_digit (b v : N) : ((b + 256 * v) / 16 = b / 16 + 16 * v)%N.
Proof.
  replace (b + 256 * v)%N with (b + (16 * v) * 16)%N by lia.
  apply N.div_add. lia.
Qed.

Lemma high_digit (b v : N) : (b < 256)%N -> ((b / 16 + 16 * v) mod 16 = b / 16)%N.
Proof.
  intros Hb. replace (b / 16 + 16 * v)%N with (b / 16 + v * 16)%N by lia.
  rewrite N.Div0.mod_add. apply N.mod_small, N.Div0.div_lt_upper_bound. lia.
Qed.

Lemma drop_byte (b v : N) : (b < 256)%N -> ((b / 16 + 16 * v) / 16 = v)%N.
Proof.
  intros Hb. replace (b / 16 + 16 * v)%N with (b / 16 + v * 16)%N by lia.
  rewrite N.div_add by lia. rewrite N.div_small; [lia |].
  apply N.Div0.div_lt_upper_bound. lia.
Qed.

(** The digits of a little-endian value are the bytes from last to first. *)
Lemma fixed_hex_le_value (bs : list byte) :
  fixed_hex (2 * length bs) (le_value bs) = hexlify (rev bs).
Proof.
  induction bs as [|b bs IH]; [reflexivity |].
  cbn [le_value length rev]. replace (2 * S (length bs)) with (S (S (2 * length bs))) by lia.
  pose proof (byte_bound b) as Hb.
  cbn [fixed_hex].
  rewrite low_digit, drop_digit, high_digit, drop_byte by assumption.
  rewrite IH, hexlify_app, append_assoc. reflexivity.
Qed.

Lemma hex_val_hex_digit (d : N) : (d < 16)%N -> hex_val (hex_digit d) = Some d.
Proof.
  intros Hd. destruct d as [|p]; [reflexivity |].
  do 4 (try destruct p as [p|p|]); try reflexivity; lia.
Qed.

Lemma of_N_digits (b : byte) :
  Byte.of_N (16 * (Byte.to_N b / 16) + Byte.to_N b mod 16) = Some b.
Proof. rewrite <- N.div_mod by lia. apply Byte.of_to_N. Qed.

(** [unhexlify] undoes [hexlify]. *)
Lemma unhexlify_hexlify (bs : list byte) : unhexlify (hexlify bs) = Ok bs.
Proof.
  induction bs as [|b bs IH]; [reflexivity |].
  pose proof (byte_bound b) as Hb.
  cbn [hexlify unhexlify].
  rewrite !hex_val_hex_digit.
  - rewrite of_N_digits, IH. reflexivity.
  - apply N.mod_lt. lia.
  - apply N.Div0.div_lt_upper_bound. lia.
Qed.

Lemma length_value_order (order : byteorder) (x : list byte) :
  length (value_order order x) = length x.
Proof. destruct order; simpl; [apply length_rev | reflexivity]. Qed.

(** A cell of the right size is printed as the digits of its bytes, most
    significant byte first. *)
Lemma hex_cell_hexlify (order : byteorder) (f : format_string) (x : list byte) :
  length x = calcsize f -> hex_cell order f x = Ok (hexlify (value_order order x)).
Proof.
  intros Hlen. unfold hex_cell, unpack. rewrite Hlen, Nat.eqb_refl. cbn [bind]. f_equal.
  assert (forall y, length y = calcsize f ->
            format_0x (2 * calcsize f) (le_value y) = hexlify (rev y)) as Hfmt.
  { intros y Hy. rewrite <- Hy, format_0x_fixed.
    - apply fixed_hex_le_value.
    - apply le_value_bound.
    - rewrite Hy. destruct f; simpl; lia. }
  destruct order; cbn [value_order].
  - apply Hfmt, Hlen.
  - rewrite Hfmt by (rewrite length_rev; exact Hlen). now rewrite rev_involutive.
Qed.

Lemma length_string_of_list_ascii (l : list ascii) :
  String.length (string_of_list_ascii l) = length l.
Proof. induction l as [|c l IH]; simpl; [reflexivity | now rewrite IH]. Qed.

Lemma length_panel_text (bs : list byte) : String.length (panel_text bs) = length bs.
Proof. unfold panel_text. now rewrite length_string_of_list_ascii, length_map. Qed.

Lemma _ascii_bytes_hexlify (bs : list byte) : _ascii_bytes (hexlify bs) = Ok (panel_text bs).
Proof. unfold _ascii_bytes. rewrite unhexlify_hexlify. reflexivity. Qed.

(** A comprehension whose body raises on no element is a [map]. *)
Lemma comprehension_map {A B : Type} (f : A -> result B) (g : A -> B) (l : list A) :
  Forall (fun x => f x = Ok (g x)) l -> comprehension f l = Ok (map g l).
Proof.
  induction 1 as [|x l Hx _ IH]; [reflexivity |].
  cbn [comprehension map]. rewrite Hx, IH. reflexivity.
Qed.

(** ** Cells of a row *)

Lemma length_chunks (w q : nat) (line : list byte) : length (chunks w q line) = q.
Proof. revert line. induction q as [|q IH]; intros line; simpl; [reflexivity | now rewrite IH]. Qed.

Lemma concat_chunks (w q : nat) (line : list byte) :
  length line = w * q -> concat (chunks w q line) = line.
Proof.
  revert line. induction q as [|q IH]; intros line Hlen.
  - destruct line; [reflexivity | simpl in Hlen; lia].
  - cbn [chunks concat]. rewrite IH.
    + apply take_drop.
    + rewrite length_drop. lia.
Qed.

Lemma Forall_chunks (w q : nat) (line : list byte) :
  length line = w * q -> Forall (fun c => length c = w) (chunks w q line).
Proof.
  revert line. induction q as [|q IH]; intros line Hlen; cbn [chunks]; constructor.
  - rewrite length_take. lia.
  - apply IH. rewrite length_drop. lia.
Qed.

Lemma data_blocks_step (w n : nat) (line : list byte) :
  List.filter nonempty
    (map (fun i => take w (drop (w * i) line)) (seq 0 (S n)))
  = ((if nonempty (take w line) then [take w line] else [])
     ++ List.filter nonempty
          (map (fun i => take w (drop (w * i) (drop w line))) (seq 0 n)))%list.
Proof.
  cbn [seq map List.filter]. rewrite Nat.mul_0_r. change (drop 0 line) with line.
  rewrite <- seq_shift, map_map.
  assert (map (fun i => take w (drop (w * S i) line)) (seq 0 n)
          = map (fun i => take w (drop (w * i) (drop w line))) (seq 0 n)) as ->.
  { apply map_ext. intros i. rewrite drop_drop. f_equal. f_equal. lia. }
  destruct (nonempty (take w line)); reflexivity.
Qed.

(** The non-empty slices of a row made of [q] whole cells are these cells. *)
Lemma data_blocks_chunks (w n q : nat) (line : list byte) :
  0 < w -> length line = w * q -> q <= n ->
  List.filter nonempty (map (fun i => take w (drop (w * i) line)) (seq 0 n))
  = chunks w q line.
Proof.
  intros Hw. revert q line. induction n as [|n IH]; intros q line Hlen Hq.
  - assert (q = 0) as -> by lia. reflexivity.
  - rewrite data_blocks_step. destruct q as [|q].
    + destruct line; [| simpl in Hlen; lia].
      rewrite take_nil, drop_nil. cbn [nonempty app]. apply (IH 0); simpl; lia.
    + cbn [chunks]. rewrite (IH q) by (rewrite ?length_drop; lia).
      destruct (take w line) eqn:Htake; [| reflexivity].
      apply (f_equal length) in Htake. rewrite length_take in Htake. simpl in Htake. lia.
Qed.

(** ** Rows of the dump *)

Lemma calcsize_cases (f : format_string) :
  calcsize f = 1 \/ calcsize f = 2 \/ calcsize f = 4 \/ calcsize f = 8.
Proof. destruct f; simpl; auto. Qed.

Lemma data_blocks_whole (f : format_string) (line : list byte) :
  whole_cells f line ->
  data_blocks (calcsize f) line = chunks (calcsize f) (length line / calcsize f) line.
Proof.
  intros [Hmod Hlen]. unfold data_blocks.
  apply data_blocks_chunks; destruct (calcsize_cases f) as [H|[H|[H|H]]];
    rewrite H in *; lia.
Qed.

Lemma Forall_chunks_whole (f : format_string) (line : list byte) :
  whole_cells f line ->
  Forall (fun c => length c = calcsize f)
         (chunks (calcsize f) (length line / calcsize f) line).
Proof.
  intros [Hmod Hlen]. apply Forall_chunks.
  destruct (calcsize_cases f) as [H|[H|[H|H]]]; rewrite H in *; lia.
Qed.

Lemma valid_data_whole (order : byteorder) (f : format_string) (line : list byte) :
  whole_cells f line -> valid_data order f line = Ok (row_cells order f line).
Proof.
  intros Hwhole. unfold valid_data, row_cells. rewrite data_blocks_whole by assumption.
  apply comprehension_map.
  eapply Forall_impl; [apply Forall_chunks_whole, Hwhole |].
  intros c Hc. apply hex_cell_hexlify, Hc.
Qed.

Lemma ascii_data_cells (order : byteorder) (f : format_string) (ascii : bool)
    (line : list byte) :
  ascii_data ascii (calcsize f) (row_cells order f line) = Ok (row_panel order f ascii line).
Proof.
  unfold ascii_data, row_panel, row_cells. destruct ascii; [| reflexivity].
  rewrite (comprehension_map _ (fun s => match _ascii_bytes s with Ok t => t | Raise _ => "" end)).
  - rewrite map_map. cbn [bind]. do 2 f_equal. apply map_ext.
    intros c. now rewrite _ascii_bytes_hexlify.
  - apply Forall_map, Forall_forall. intros c _. cbn beta.
    now rewrite _ascii_bytes_hexlify.
Qed.

(** A row of whole cells is printed without an exception. *)
Lemma display_row_whole (order : byteorder) (f : format_string) (ascii : bool)
    (label : Z) (line : list byte) :
  whole_cells f line ->
  display_row order f ascii label line = Ok (row_text order f ascii label line).
Proof.
  intros Hwhole. unfold display_row.
  rewrite valid_data_whole by assumption. cbn [bind].
  rewrite ascii_data_cells. reflexivity.
Qed.

Lemma length_rows_text order f ascii n offset data :
  length (rows_text order f ascii n offset data) = n.
Proof.
  revert offset data. induction n as [|n IH]; intros; simpl; [reflexivity | now rewrite IH].
Qed.

Lemma rows_text_lookup order f ascii n : forall k offset data,
  k < n ->
  rows_text order f ascii n offset data !! k
  = Some (row_text order f ascii (offset + 16 * Z.of_nat k + 16) (take 16 (drop (16 * k) data))).
Proof.
  induction n as [|n IH]; intros k offset data Hk; [lia |].
  destruct k as [|k].
  - cbn [rows_text]. rewrite Nat.mul_0_r, Z.mul_0_r, Z.add_0_r. reflexivity.
  - cbn [rows_text]. change ((?x :: ?l) !! S k) with (l !! k).
    rewrite IH by lia. rewrite drop_drop.
    replace (offset + 16 + 16 * Z.of_nat k + 16)%Z
      with (offset + 16 * Z.of_nat (S k) + 16)%Z by lia.
    replace (16 + 16 * k) with (16 * S k) by lia. reflexivity.
Qed.

(** The loop prints one line per started row of 16 bytes and raises nothing,
    when the data is made of whole cells. *)
Lemma display_loop_rows order f ascii : forall n offset data,
  length data mod calcsize f = 0 -> (length data + 15) / 16 = n ->
  display_loop order f ascii offset data = (rows_text order f ascii n offset data, None).
Proof.
  induction n as [|n IH]; intros offset data Hmod Hn.
  - destruct data as [|b rest]; [| cbn [length] in Hn; lia]. now simp display_loop.
  - destruct data as [|b rest]; [cbn [length] in Hn; lia |].
    simp display_loop.
    assert (whole_cells f (take 16 (b :: rest))) as Hwhole.
    { unfold whole_cells. rewrite length_take.
      destruct (calcsize_cases f) as [H|[H|[H|H]]]; rewrite H in *; lia. }
    rewrite display_row_whole by assumption. cbn.
    rewrite IH; [reflexivity | |].
    + rewrite length_drop. clear Hwhole. cbn [length] in Hmod.
      destruct (calcsize_cases f) as [H|[H|[H|H]]]; rewrite H in *; lia.
    + rewrite length_drop. cbn [length] in Hn. lia.
Qed.

Lemma length_truncated (f : format_string) (data : list byte) :
  length (truncated f data) = length data - length data mod calcsize f.
Proof. unfold truncated. rewrite length_take. lia. Qed.

Lemma truncated_whole (f : format_string) (data : list byte) :
  length (truncated f data) mod calcsize f = 0.
Proof.
  rewrite length_truncated.
  destruct (calcsize_cases f) as [H|[H|[H|H]]]; rewrite H; lia.
Qed.

(** [_display_data] never raises: it prints the rows of the truncated data. *)
Lemma _display_data_rows order offset data f ascii :
  _display_data order offset data f ascii
  = (rows_text order f ascii ((length (truncated f data) + 15) / 16) offset (truncated f data),
     None).
Proof.
  unfold _display_data. apply display_loop_rows; [apply truncated_whole | reflexivity].
Qed.

(** Every 16-byte slice of the truncated data is a row of whole cells. *)
Lemma row_whole (f : format_string) (data : list byte) (k : nat) :
  whole_cells f (take 16 (drop (16 * k) (truncated f data))).
Proof.
  unfold whole_cells. rewrite length_take, length_drop.
  pose proof (truncated_whole f data) as Hmod.
  destruct (calcsize_cases f) as [H|[H|[H|H]]]; rewrite H in *; lia.
Qed.

Lemma concat_rows (n : nat) : forall (data : list byte),
  length data <= 16 * n ->
  concat (map (fun k => take 16 (drop (16 * k) data)) (seq 0 n)) = data.
Proof.
  induction n as [|n IH]; intros data Hlen.
  - destruct data; [reflexivity | simpl in Hlen; lia].
  - cbn [seq map concat]. rewrite <- seq_shift, map_map.
    erewrite map_ext; [rewrite (IH (drop 16 data)) |].
    + rewrite Nat.mul_0_r. apply take_drop.
    + rewrite length_drop. lia.
    + intros k. cbn beta. rewrite drop_drop. do 2 f_equal. lia.
Qed.

Lemma length_row_cells order (f : format_string) (line : list byte) :
  length (row_cells order f line) = length line / calcsize f.
Proof. unfold row_cells. now rewrite length_map, length_chunks. Qed.

Lemma row_cells_width order (f : format_string) (line : list byte) :
  whole_cells f line ->
  Forall (fun cell => String.length cell = 2 * calcsize f) (row_cells order f line).
Proof.
  intros Hwhole. unfold row_cells. apply Forall_map.
  eapply Forall_impl; [apply Forall_chunks_whole, Hwhole |].
  intros c Hc. cbn beta. now rewrite length_hexlify, length_value_order, Hc.
Qed.

Lemma padding_data_spaces (w : nat) (line : list byte) :
  Forall (fun cell => cell = str_repeat " " (2 * w)) (padding_data w line).
Proof. unfold padding_data. apply Forall_replicate. reflexivity. Qed.

Lemma row_cell_count order (f : format_string) (line : list byte) :
  whole_cells f line ->
  length (row_cells order f line) + length (padding_data (calcsize f) line)
  = 16 / calcsize f.
Proof.
  intros [Hmod Hlen]. rewrite length_row_cells. unfold padding_data.
  rewrite length_replicate.
  destruct (calcsize_cases f) as [H|[H|[H|H]]]; rewrite H in *; lia.
Qed.

(** ** The dump formatter: address labels, cells and padding *)

(** C1. The line printed for the row that starts at [offset + 16 * k] (the
    [k]-th slice of 16 bytes of the truncated data) carries the label
    [hex(offset + 16 * k + 16)]: the offset is advanced by 16 before the
    print, so the first row of a dump at [offset] is labelled [offset + 16],
    the second [offset + 32], and so on. *)
Theorem display_data_label_after_row (order : byteorder) (offset : Z) (data : list byte)
    (f : format_string) (ascii : bool) (k : nat) (line : string) :
  fst (_display_data order offset data f ascii) !! k = Some line ->
  let start := (offset + 16 * Z.of_nat k)%Z in
  let row := take 16 (drop (16 * k) (truncated f data)) in
  row <> []
  /\ display_row order f ascii (start + 16) row = Ok line
  /\ exists hex_data panel,
       line = hex (start + 16) +:+ " " +:+ "  " +:+ " " +:+ hex_data
              +:+ " " +:+ "  " +:+ " " +:+ panel.
Proof.
  rewrite _display_data_rows. cbn [fst]. intros Hline.
  assert (k < (length (truncated f data) + 15) / 16) as Hk.
  { apply lookup_lt_Some in Hline. now rewrite length_rows_text in Hline. }
  rewrite rows_text_lookup in Hline by assumption.
  injection Hline as <-. cbn zeta. split; [| split].
  - intros Hnil. apply (f_equal length) in Hnil.
    rewrite length_take, length_drop in Hnil. cbn [length] in Hnil. lia.
  - apply display_row_whole, row_whole.
  - eexists _, _. reflexivity.
Qed.

Lemma display_data_label_after_row_witness :
  let row := take 16 (drop (16 * 1) (truncated fmt_H dump_20_bytes)) in
  row <> []
  /\ display_row little fmt_H true (4096 + 16 * Z.of_nat 1 + 16) row
     = Ok "0x1020    5251 5453                                  RQ TS"
  /\ exists hex_data panel,
       "0x1020    5251 5453                                  RQ TS"
       = hex (4096 + 16 * Z.of_nat 1 + 16) +:+ " " +:+ "  " +:+ " " +:+ hex_data
         +:+ " " +:+ "  " +:+ " " +:+ panel.
Proof.
  apply (display_data_label_after_row little 4096 dump_20_bytes fmt_H true 1).
  vm_compute. reflexivity.
Defined.

(** C2. For every buffer and every format of width [w] in 1, 2, 4, 8,
    [_display_data] raises nothing and prints one line per started row of 16
    bytes of the first [L - L mod w] bytes: the rows together are exactly
    these bytes, the cells of each row are exactly its bytes, every row has
    [16 / w] cells counting the padding, every cell (present or padding) is
    [2 * w] characters wide, and the padding cells are runs of spaces. *)
Theorem display_data_cells (order : byteorder) (offset : Z) (data : list byte)
    (f : format_string) (ascii : bool) :
  let w := calcsize f in
  let kept := take (length data - length data mod w) data in
  let n := (length kept + 15) / 16 in
  let row := fun k => take 16 (drop (16 * k) kept) in
  _display_data order offset data f ascii
  = (map (fun k => row_text order f ascii (offset + 16 * Z.of_nat k + 16) (row k)) (seq 0 n),
     None)
  /\ concat (map row (seq 0 n)) = kept
  /\ Forall
       (fun k =>
          display_row order f ascii (offset + 16 * Z.of_nat k + 16) (row k)
          = Ok (row_text order f ascii (offset + 16 * Z.of_nat k + 16) (row k))
          /\ valid_data order f (row k) = Ok (row_cells order f (row k))
          /\ concat (data_blocks w (row k)) = row k
          /\ length (row_cells order f (row k)) = length (data_blocks w (row k))
          /\ length (row_cells order f (row k)) + length (padding_data w (row k)) = 16 / w
          /\ Forall (fun cell => String.length cell = 2 * w)
                    (row_cells order f (row k) ++ padding_data w (row k))
          /\ Forall (fun cell => cell = str_repeat " " (2 * w)) (padding_data w (row k)))
       (seq 0 n).
Proof.
  cbn zeta. fold (truncated f data).
  set (kept := truncated f data). set (n := (length kept + 15) / 16).
  split; [| split].
  - rewrite _display_data_rows. fold kept n. f_equal.
    apply list_eq. intros k. rewrite list_lookup_fmap.
    destruct (decide (k < n)) as [Hk|Hk].
    + rewrite rows_text_lookup by assumption.
      rewrite lookup_seq_lt by assumption. reflexivity.
    + rewrite lookup_ge_None_2 by (rewrite length_rows_text; lia).
      rewrite lookup_seq_ge by lia. reflexivity.
  - apply concat_rows. subst n. lia.
  - apply Forall_forall. intros k _.
    pose proof (row_whole f data k) as Hwhole. fold kept in Hwhole.
    pose proof (data_blocks_whole f _ Hwhole) as Hblocks.
    repeat split.
    + apply display_row_whole, Hwhole.
    + apply valid_data_whole, Hwhole.
    + rewrite Hblocks. apply concat_chunks.
      destruct Hwhole as [Hmod _].
      destruct (calcsize_cases f) as [H|[H|[H|H]]]; rewrite H in *; lia.
    + now rewrite Hblocks, length_row_cells, length_chunks.
    + apply row_cell_count, Hwhole.
    + apply Forall_app. split; [apply row_cells_width, Hwhole |].
      eapply Forall_impl; [apply padding_data_spaces |].
      intros cell ->. apply length_str_repeat.
    + apply padding_data_spaces.
Qed.

(** ** The ASCII panel *)

(** C3, as the code has it. For every cell of a row, [_ascii_bytes] is given
    the hexadecimal digits of the cell and returns one character per byte of
    the cell, in the order of the digits: the character of the byte when the
    byte is strictly between 0x20 and 0x7F (so 0x21 to 0x7E, the tilde
    included), and a dot for every other byte. *)
Theorem ascii_panel_of_cell (order : byteorder) (f : format_string) (cell : list byte) :
  length cell = calcsize f ->
  exists digits panel,
    hex_cell order f cell = Ok digits
    /\ _ascii_bytes digits = Ok panel
    /\ list_ascii_of_string panel = map ascii_char (value_order order cell)
    /\ String.length panel = length cell
    /\ forall b : byte,
         ((32 < Byte.to_N b < 127)%N -> ascii_char b = ascii_of_byte b)
         /\ ((Byte.to_N b <= 32 \/ 127 <= Byte.to_N b)%N -> ascii_char b = "."%char).
Proof.
  intros Hlen. exists (hexlify (value_order order cell)), (panel_text (value_order order cell)).
  split; [apply hex_cell_hexlify, Hlen |].
  split; [apply _ascii_bytes_hexlify |].
  split; [apply list_ascii_of_string_of_list_ascii |].
  split; [now rewrite length_panel_text, length_value_order |].
  intros b. unfold ascii_char. split.
  - intros [Hlo Hhi].
    apply N.ltb_lt in Hlo, Hhi. now rewrite Hlo, Hhi.
  - intros [Hlo|Hhi].
    + apply N.ltb_ge in Hlo. now rewrite Hlo.
    + apply N.ltb_ge in Hhi. rewrite Hhi. now rewrite andb_false_r.
Qed.

Lemma ascii_panel_of_cell_witness :
  exists digits panel,
    hex_cell little fmt_I [x7e; x20; x7f; x41] = Ok digits
    /\ _ascii_bytes digits = Ok panel
    /\ list_ascii_of_string panel = map ascii_char [x41; x7f; x20; x7e]
    /\ String.length panel = 4
    /\ ascii_char x41 = "A"%char
    /\ ascii_char x7f = "."%char
    /\ ascii_char x20 = "."%char
    /\ ascii_char x7e = "~"%char.
Proof.
  destruct (ascii_panel_of_cell little fmt_I [x7e; x20; x7f; x41] eq_refl)
    as (digits & panel & Hcell & Hpanel & Hchars & Hlen & Hchar).
  exists digits, panel.
  split; [exact Hcell |]. split; [exact Hpanel |]. split; [exact Hchars |].
  split; [exact Hlen |]. split; [| split; [| split]].
  - apply (proj1 (Hchar x41)). vm_compute. split; reflexivity.
  - apply (proj2 (Hchar x7f)). right. vm_compute. discriminate.
  - apply (proj2 (Hchar x20)). left. vm_compute. discriminate.
  - apply (proj1 (Hchar x7e)). vm_compute. split; reflexivity.
Defined.

(** The byte 0x7E is shown as a tilde, not as a dot. *)
Lemma ascii_panel_shows_tilde :
  (32 < Byte.to_N x7e < 127)%N
  /\ ascii_char x7e = "~"%char
  /\ ascii_char x7e <> "."%char
  /\ _ascii_bytes "7e" = Ok "~"
  /\ _display_data little 0 [x7e] fmt_B true
     = (["0x10    7e                                                 ~"], None).
Proof.
  split; [vm_compute; split; reflexivity |].
  split; [reflexivity |]. split; [discriminate |]. split; reflexivity.
Qed.

(** ** The example of the specification *)

(** C4, as the code has it. On a little-endian machine the 16 bytes of the
    example at offset 0x1000 with double-word cells give one line, labelled
    0x1010, with four cells 00000041 and the panel [...A ...A ...A ...A]:
    four characters per cell, in the order of the digits of the cell. *)
Theorem example_doublewords :
  _display_data little 4096 example_data fmt_I true
  = ([hex 4112 +:+ " " +:+ "  " +:+ " " +:+ "00000041 00000041 00000041 00000041"
      +:+ " " +:+ "  " +:+ " " +:+ "...A ...A ...A ...A"], None)
  /\ hex 4112 = "0x1010"
  /\ valid_data little fmt_I example_data
     = Ok ["00000041"; "00000041"; "00000041"; "00000041"]
  /\ ascii_data true (calcsize fmt_I) ["00000041"; "00000041"; "00000041"; "00000041"]
     = Ok "...A ...A ...A ...A".
Proof. repeat split; vm_compute; reflexivity. Qed.

(** The panel of the example is not [A A A A], on either byte order. *)
Lemma example_panel_is_not_single_letters :
  _display_data little 4096 example_data fmt_I true
  = (["0x1010    00000041 00000041 00000041 00000041    ...A ...A ...A ...A"], None)
  /\ _display_data little 4096 example_data fmt_I true
     <> (["0x1010    00000041 00000041 00000041 00000041    A A A A"], None)
  /\ _display_data big 4096 example_data fmt_I true
     = (["0x1010    41000000 41000000 41000000 41000000    A... A... A... A..."], None).
Proof.
  split; [vm_compute; reflexivity |].
  split; [vm_compute; discriminate | vm_compute; reflexivity].
Qed.

(** ** The disassembly dispatcher *)

Lemma has_capstone_false (self : session) : has_capstone self = false -> capstone self = None.
Proof. unfold has_capstone. destruct (capstone self); [discriminate | reflexivity]. Qed.

(** A read that succeeds found its layer. *)
Lemma _read_data_Ok (self : session) (offset count : Z) (layer_name : option string)
    (data : list byte) :
  _read_data self offset count layer_name = Ok data ->
  exists name l,
    layer_or_current self layer_name = Ok name
    /\ layers self !! name = Some l
    /\ read l offset count = Ok data.
Proof.
  unfold _read_data, get_layer.
  destruct (layer_or_current self layer_name) as [name|e]; [| discriminate].
  cbn [bind]. destruct (layers self !! name) as [l|] eqn:Hl; [| discriminate].
  cbn [bind]. intros Hread. exists name, l. auto.
Qed.

Lemma _read_data_found (self : session) (offset count : Z) (layer_name : option string)
    (name : string) (l : layer) :
  layer_or_current self layer_name = Ok name ->
  layers self !! name = Some l ->
  _read_data self offset count layer_name = read l offset count.
Proof. intros Hname Hl. unfold _read_data, get_layer. now rewrite Hname; cbn [bind]; rewrite Hl. Qed.

(** [disassemble] on a layer that is found and read, with capstone present:
    the mode is looked up under the resolved architecture. *)
Lemma disassemble_found (self : session) (cs : decoder) (offset count : Z)
    (layer_name architecture : option string) (name : string) (l : layer) (data : list byte) :
  capstone self = Some cs ->
  layer_or_current self layer_name = Ok name ->
  layers self !! name = Some l ->
  read l offset count = Ok data ->
  disassemble self offset count layer_name architecture
  = match resolve_architecture (layer_type l) architecture with
    | None => ([], None)
    | Some a =>
        match disasm_types !! a with
        | None => ([], Some (KeyError a))
        | Some md => (map insn_line (cs md data offset), None)
        end
    end.
Proof.
  intros Hcs Hname Hl Hread. unfold disassemble.
  rewrite (_read_data_found _ _ _ _ _ _ Hname Hl), Hread, Hcs, Hname.
  cbn [bind]. unfold get_layer. rewrite Hl. reflexivity.
Qed.

Lemma disasm_types_intel64 :
  disasm_types !! "intel64" = Some {| arch := CS_ARCH_X86; mode := CS_MODE_64 |}.
Proof. reflexivity. Qed.

Lemma disasm_types_intel :
  disasm_types !! "intel" = Some {| arch := CS_ARCH_X86; mode := CS_MODE_32 |}.
Proof. reflexivity. Qed.

(** C5, as the code has it. With capstone present and a target layer that
    is found and read, the decode mode is the one of the layer whenever the
    layer is an Intel layer (64-bit x86 for an [Intel32e] layer, 32-bit x86
    for any other Intel layer), whatever architecture the caller names; the
    named architecture selects the mode only on a layer that is no Intel
    layer. *)
Theorem disassemble_mode (self : session) (cs : decoder) (offset count : Z)
    (layer_name architecture : option string) (name : string) (l : layer) (data : list byte) :
  capstone self = Some cs ->
  layer_or_current self layer_name = Ok name ->
  layers self !! name = Some l ->
  read l offset count = Ok data ->
  (layer_type l = Intel32e ->
     disassemble self offset count layer_name architecture
     = (map insn_line (cs {| arch := CS_ARCH_X86; mode := CS_MODE_64 |} data offset), None))
  /\ (layer_type l = Intel ->
     disassemble self offset count layer_name architecture
     = (map insn_line (cs {| arch := CS_ARCH_X86; mode := CS_MODE_32 |} data offset), None))
  /\ (layer_type l = NonIntel ->
     forall a md, architecture = Some a -> disasm_types !! a = Some md ->
       disassemble self offset count layer_name architecture
       = (map insn_line (cs md data offset), None)).
Proof.
  intros Hcs Hname Hl Hread.
  rewrite (disassemble_found _ _ _ _ _ _ _ _ _ Hcs Hname Hl Hread).
  split; [| split].
  - intros ->. cbn [resolve_architecture]. now rewrite disasm_types_intel64.
  - intros ->. cbn [resolve_architecture]. now rewrite disasm_types_intel.
  - intros -> a md -> Hmd. cbn [resolve_architecture]. now rewrite Hmd.
Qed.

Lemma disassemble_mode_witness :
  disassemble (example_session (Some mode_decoder)) 4096 2 None (Some "arm")
  = (map insn_line
       (mode_decoder {| arch := CS_ARCH_X86; mode := CS_MODE_64 |} [x90; x90] 4096%Z), None)
  /\ disassemble (example_session (Some mode_decoder)) 4096 2 (Some "file") (Some "arm")
     = (map insn_line
          (mode_decoder {| arch := CS_ARCH_ARM; mode := CS_MODE_ARM |} [x90; x90] 4096%Z), None).
Proof.
  split.
  - apply (disassemble_mode (example_session (Some mode_decoder)) mode_decoder 4096 2
             None (Some "arm") "primary" (nop_layer Intel32e) [x90; x90]);
      reflexivity.
  - apply (disassemble_mode (example_session (Some mode_decoder)) mode_decoder 4096 2
             (Some "file") (Some "arm") "file" (nop_layer NonIntel) [x90; x90])
      with (a := "arm");
      reflexivity.
Defined.

(** On an [Intel32e] layer the architecture named by the caller is not used:
    asked for ["arm"], [disassemble] decodes in 64-bit x86 mode. *)
Lemma disassemble_ignores_named_architecture :
  disasm_types !! "arm" = Some {| arch := CS_ARCH_ARM; mode := CS_MODE_ARM |}
  /\ disassemble (example_session (Some mode_decoder)) 4096 2 None (Some "arm")
     = (map insn_line
          (mode_decoder {| arch := CS_ARCH_X86; mode := CS_MODE_64 |} [x90; x90] 4096%Z), None)
  /\ disassemble (example_session (Some mode_decoder)) 4096 2 None (Some "arm")
     <> (map insn_line
           (mode_decoder {| arch := CS_ARCH_ARM; mode := CS_MODE_ARM |} [x90; x90] 4096%Z), None).
Proof.
  split; [reflexivity |]. split; [vm_compute; reflexivity | vm_compute; discriminate].
Qed.

(** C6, as the code has it. With no architecture named and a target layer
    that is found, read, and no Intel layer, [disassemble] decodes nothing
    and raises nothing; it prints nothing when capstone is present, and the
    notice only when capstone is absent. *)
Theorem disassemble_unknown_architecture (self : session) (offset count : Z)
    (layer_name : option string) (name : string) (l : layer) (data : list byte) :
  layer_or_current self layer_name = Ok name ->
  layers self !! name = Some l ->
  layer_type l = NonIntel ->
  read l offset count = Ok data ->
  disassemble self offset count layer_name None
  = (if has_capstone self then [] else [unavailable_notice], None).
Proof.
  intros Hname Hl Hclass Hread. unfold has_capstone.
  destruct (capstone self) as [cs|] eqn:Hcs.
  - rewrite (disassemble_found _ _ _ _ _ _ _ _ _ Hcs Hname Hl Hread), Hclass. reflexivity.
  - unfold disassemble.
    now rewrite (_read_data_found _ _ _ _ _ _ Hname Hl), Hread, Hcs.
Qed.

Lemma disassemble_unknown_architecture_witness :
  disassemble (example_session (Some mode_decoder)) 0 2 (Some "file") None
  = (if has_capstone (example_session (Some mode_decoder)) then [] else [unavailable_notice],
     None).
Proof.
  apply (disassemble_unknown_architecture (example_session (Some mode_decoder)) 0 2
           (Some "file") "file" (nop_layer NonIntel) [x90; x90]);
    reflexivity.
Defined.

(** With capstone present, a layer that is no Intel layer and no
    architecture named, nothing is printed: no notice. *)
Lemma disassemble_prints_no_notice :
  layer_type (nop_layer NonIntel) = NonIntel
  /\ layers (example_session (Some mode_decoder)) !! "file" = Some (nop_layer NonIntel)
  /\ disassemble (example_session (Some mode_decoder)) 0 2 (Some "file") None = ([], None)
  /\ ~ In unavailable_notice
        (fst (disassemble (example_session (Some mode_decoder)) 0 2 (Some "file") None)).
Proof.
  split; [reflexivity |]. split; [reflexivity |]. split; [reflexivity |].
  intros [].
Qed.

(** C7. Without capstone, every call of [disassemble] whose read succeeds
    prints the notice and raises nothing, whatever the offset, the count,
    the layer and the architecture. *)
Theorem disassemble_without_capstone (self : session) (offset count : Z)
    (layer_name architecture : option string) (data : list byte) :
  has_capstone self = false ->
  _read_data self offset count layer_name = Ok data ->
  disassemble self offset count layer_name architecture = ([unavailable_notice], None).
Proof.
  intros Hcs Hread. unfold disassemble.
  now rewrite Hread, (has_capstone_false _ Hcs).
Qed.

Lemma disassemble_without_capstone_witness :
  disassemble (example_session None) 4096 2 (Some "file") (Some "arm64")
  = ([unavailable_notice], None).
Proof.
  apply (disassemble_without_capstone (example_session None) 4096 2 (Some "file")
           (Some "arm64") [x90; x90]);
    reflexivity.
Defined.

(** ** The layer selector *)

(** Only [change_layer] changes the session. *)
Lemma exec_keeps_session (c : command) (self : session) :
  is_switch c = false -> fst (exec c self) = self.
Proof. destruct c; simpl; intros H; [discriminate | reflexivity ..]. Qed.

Lemma exec_all_keeps_session (cs : list command) : forall self : session,
  Forall (fun c => is_switch c = false) cs -> exec_all cs self = self.
Proof.
  induction cs as [|c cs IH]; intros self Hcs; [reflexivity |].
  inversion_clear Hcs as [|? ? Hc Hrest].
  unfold exec_all in *. cbn [fold_left]. rewrite exec_keeps_session by assumption.
  apply IH, Hrest.
Qed.

Lemma change_layer_name (name : string) (self : session) :
  name <> "" -> _current_layer (change_layer (Some name) self) = Some name.
Proof. intros Hname. destruct name; [contradiction | reflexivity]. Qed.

(** C8, as the code has it. Switching to a non-empty name makes it the
    current layer whether or not such a layer exists; until the next switch
    every read without a layer argument reads from the layer of that name
    ([KeyError] if there is none); switching with no name makes the
    configured primary layer current again. *)
Theorem change_layer_then_read (self : session) (name : string) (cs : list command)
    (offset count : Z) :
  name <> "" ->
  Forall (fun c => is_switch c = false) cs ->
  let switched := change_layer (Some name) self in
  let later := exec_all cs switched in
  current_layer switched = Ok name
  /\ current_layer later = Ok name
  /\ _read_data later offset count None
     = match layers self !! name with
       | Some l => read l offset count
       | None => Raise (KeyError name)
       end
  /\ current_layer (change_layer None later) = Ok (config_primary self).
Proof.
  intros Hname Hcs. cbn zeta.
  rewrite exec_all_keeps_session by assumption.
  unfold current_layer. rewrite change_layer_name by assumption.
  split; [reflexivity |]. split; [reflexivity |]. split; [| reflexivity].
  unfold _read_data, layer_or_current, current_layer, get_layer.
  rewrite change_layer_name by assumption. cbn [bind].
  change (layers (change_layer (Some name) self)) with (layers self).
  destruct (layers self !! name); reflexivity.
Qed.

Lemma change_layer_then_read_witness :
  let switched := change_layer (Some "file") (example_session None) in
  let later := exec_all [db 0 16 None; dis 0 16 (Some "primary") None; dq 0 16 None] switched in
  current_layer switched = Ok "file"
  /\ current_layer later = Ok "file"
  /\ _read_data later 32 8 None
     = match layers (example_session None) !! "file" with
       | Some l => read l 32 8
       | None => Raise (KeyError "file")
       end
  /\ current_layer (change_layer None later) = Ok (config_primary (example_session None)).
Proof.
  apply (change_layer_then_read (example_session None) "file"
           [db 0 16 None; dis 0 16 (Some "primary") None; dq 0 16 None] 32 8).
  - discriminate.
  - repeat constructor.
Defined.

(** Switching to the empty name does not make it the current layer. *)
Lemma change_layer_empty_name_not_set :
  current_layer (change_layer (Some "") (change_layer (Some "file") (example_session None)))
  = Ok "primary"
  /\ current_layer (change_layer (Some "") (change_layer (Some "file") (example_session None)))
     <> Ok "".
Proof. split; [reflexivity | discriminate]. Qed.

(** C10. [change_layer] with the empty string does what it does with no
    name: the configured primary layer becomes current. So, the primary
    layer having a name, no call makes the empty string the current
    layer. *)
Theorem change_layer_empty_name_resets (self : session) :
  change_layer (Some "") self = change_layer None self
  /\ current_layer (change_layer (Some "") self) = Ok (config_primary self)
  /\ ps1 (change_layer (Some "") self) = prompt (config_primary self)
  /\ (config_primary self <> "" ->
      forall layer_name, current_layer (change_layer layer_name self) <> Ok "").
Proof.
  split; [reflexivity |]. split; [reflexivity |]. split; [reflexivity |].
  intros Hprimary [[|c rest]|]; cbn; congruence.
Qed.

Lemma change_layer_empty_name_resets_witness :
  change_layer (Some "") (example_session None) = change_layer None (example_session None)
  /\ current_layer (change_layer (Some "") (example_session None)) = Ok "primary"
  /\ ps1 (change_layer (Some "") (example_session None)) = "(primary) >>> "
  /\ forall layer_name, current_layer (change_layer layer_name (example_session None)) <> Ok "".
Proof.
  destruct (change_layer_empty_name_resets (example_session None)) as [H1 [H2 [H3 H4]]].
  split; [exact H1 |]. split; [exact H2 |]. split; [exact H3 |].
  apply H4. discriminate.
Defined.

(** ** The type inspector *)

(** In a dictionary (no key twice) every entry is found under its key. *)
Lemma dict_get_entry (d : members_dict) (member : string) (v : Z * string) :
  NoDup (map fst d) -> In (member, v) d -> dict_get d member = Ok v.
Proof.
  induction d as [|[k w] d IH]; intros Hnodup Hin; [destruct Hin |].
  cbn [map fst] in Hnodup. apply NoDup_cons in Hnodup as [Hk Hnodup].
  cbn [dict_get]. destruct Hin as [Heq|Hin].
  - injection Heq as -> ->. now rewrite String.eqb_refl.
  - destruct (String.eqb_spec k member) as [->|Hne]; [| now apply IH].
    exfalso. apply Hk. apply list_elem_of_In, in_map_iff. now exists (member, v).
Qed.

(** The first loop computes the maxima of the two lengths. *)
Lemma longest_entries (d entries : members_dict) : forall acc,
  Forall (fun m => dict_get d (fst m) = Ok (snd m)) entries ->
  longest d (map fst entries) acc
  = Ok (Nat.max (list_max (map name_length entries)) (fst acc),
        Nat.max (list_max (map offset_length entries)) (snd acc)).
Proof.
  induction entries as [|[member v] entries IH]; intros [lm lo] Hall.
  - reflexivity.
  - inversion_clear Hall as [|? ? Hget Hrest]. cbn [fst snd] in Hget.
    cbn [map fst longest]. rewrite Hget. cbn [bind]. rewrite IH by assumption.
    cbn [map fst snd].
    change (list_max (name_length (member, v) :: map name_length entries))
      with (Nat.max (String.length member) (list_max (map name_length entries))).
    change (list_max (offset_length (member, v) :: map offset_length entries))
      with (Nat.max (String.length (hex (fst v))) (list_max (map offset_length entries))).
    f_equal. f_equal; lia.
Qed.

Lemma member_lines_entries (d entries : members_dict) (lm lo : nat) :
  Forall (fun m => dict_get d (fst m) = Ok (snd m)) entries ->
  member_lines d (map fst entries) lm lo
  = (map (fun m => member_line lm lo (fst m) (snd m)) entries, None).
Proof.
  induction 1 as [|[member v] entries Hget _ IH]; [reflexivity |].
  cbn [fst snd] in Hget. cbn [map fst member_lines]. rewrite Hget, IH. reflexivity.
Qed.

Lemma list_max_bound (l : list nat) (x : nat) : In x l -> x <= list_max l.
Proof.
  intros Hin. pose proof (proj1 (list_max_le l (list_max l)) (Nat.le_refl _)) as Hall.
  rewrite List.Forall_forall in Hall. now apply Hall.
Qed.

Lemma member_line_aligned (lm lo : nat) (m : string * (Z * string)) :
  member_line lm lo (fst m) (snd m) = aligned_line lm lo m.
Proof. reflexivity. Qed.

(** C9, as the code has it. For an object with no member nothing is
    printed. Otherwise one line per member is printed, in the order of the
    dictionary: the hexadecimal offset is padded on its left (right-aligned)
    to the longest offset string, the name is padded on its right to the
    longest name, so the offset column ends and the name column starts and
    ends at the same position on every line. *)
Theorem display_type_aligned (members : members_dict) :
  NoDup (map fst members) ->
  let longest_member := list_max (map name_length members) in
  let longest_offset := list_max (map offset_length members) in
  display_type [] = ([], None)
  /\ display_type members
     = (map (aligned_line longest_member longest_offset) members, None)
  /\ length (fst (display_type members)) = length members
  /\ Forall
       (fun m =>
          String.length
            (str_repeat " " (longest_offset - offset_length m) +:+ " " +:+ hex (fst (snd m)))
          = longest_offset + 1
          /\ String.length
               (fst m +:+ " " +:+ str_repeat " " (longest_member - name_length m))
             = longest_member + 1)
       members.
Proof.
  intros Hnodup. cbn zeta.
  assert (Forall (fun m => dict_get members (fst m) = Ok (snd m)) members) as Hget.
  { apply List.Forall_forall. intros [member v] Hin. now apply dict_get_entry. }
  assert (display_type members
          = (map (aligned_line (list_max (map name_length members))
                               (list_max (map offset_length members))) members, None)) as Hout.
  { unfold display_type. rewrite longest_entries by assumption. cbn [fst snd].
    rewrite !Nat.max_0_r. rewrite member_lines_entries by assumption.
    f_equal. }
  split; [reflexivity |]. split; [exact Hout |]. split.
  - rewrite Hout. cbn [fst]. apply length_map.
  - apply List.Forall_forall. intros m Hin.
    assert (name_length m <= list_max (map name_length members)) as Hname
      by (apply list_max_bound, in_map, Hin).
    assert (offset_length m <= list_max (map offset_length members)) as Hoff
      by (apply list_max_bound, in_map, Hin).
    rewrite !length_append, !length_str_repeat.
    fold (offset_length m) (name_length m). cbn [String.length]. lia.
Qed.

Lemma display_type_aligned_witness :
  let longest_member := list_max (map name_length example_members) in
  let longest_offset := list_max (map offset_length example_members) in
  display_type [] = ([], None)
  /\ display_type example_members
     = (map (aligned_line longest_member longest_offset) example_members, None)
  /\ length (fst (display_type example_members)) = length example_members
  /\ Forall
       (fun m =>
          String.length
            (str_repeat " " (longest_offset - offset_length m) +:+ " " +:+ hex (fst (snd m)))
          = longest_offset + 1
          /\ String.length
               (fst m +:+ " " +:+ str_repeat " " (longest_member - name_length m))
             = longest_member + 1)
       example_members.
Proof.
  apply (display_type_aligned example_members).
  apply (bool_decide_unpack _). vm_compute. exact I.
Defined.

(** The offset is padded on its left: the line of the first member starts
    with the padding, not with the offset followed by padding. *)
Lemma display_type_pads_offset_on_the_left :
  display_type example_members
  = (["  0x0 " +:+ tab +:+ tab +:+ " a   " +:+ tab +:+ tab +:+ " int";
      " 0x10 " +:+ tab +:+ tab +:+ " bb  " +:+ tab +:+ tab +:+ " char"], None)
  /\ String.prefix (str_repeat " " (4 - 3) +:+ " " +:+ hex 0)
       ("  0x0 " +:+ tab +:+ tab +:+ " a   " +:+ tab +:+ tab +:+ " int") = true
  /\ String.prefix (hex 0 +:+ str_repeat " " (4 - 3))
       ("  0x0 " +:+ tab +:+ tab +:+ " a   " +:+ tab +:+ tab +:+ " int") = false.
Proof. repeat split; vm_compute; reflexivity. Qed.

(** * Further properties *)

(** ** The panel function *)

Lemma unhexlify_length (s : string) :
  (forall bs, unhexlify s = Ok bs -> String.length s = 2 * length bs)
  /\ (forall c bs, unhexlify (String c s) = Ok bs -> S (String.length s) = 2 * length bs).
Proof.
  induction s as [|c' s [IH1 IH2]].
  - split; [intros bs [= <-]; reflexivity | intros c bs; discriminate].
  - split; [exact (IH2 c') |].
    intros c bs. cbn [unhexlify].
    destruct (hex_val c); [| discriminate]. destruct (hex_val c'); [| discriminate].
    destruct (Byte.of_N _); [| discriminate].
    destruct (unhexlify s) as [bs'|] eqn:Hs; [| discriminate].
    cbn [bind]. intros [= <-]. pose proof (IH1 bs' eq_refl) as Hlen.
    cbn [String.length length]. lia.
Qed.

Lemma ascii_char_visible (b : byte) : (32 < N_of_ascii (ascii_char b) < 127)%N.
Proof. destruct b; vm_compute; split; reflexivity. Qed.

(** X1. Whatever hexadecimal string it is given, when [_ascii_bytes] returns
    it returns one character for every two digits, and every character is a
    visible ASCII character (code 33 to 126): no space, no control
    character. *)
Theorem ascii_bytes_visible (bytes panel : string) :
  _ascii_bytes bytes = Ok panel ->
  String.length bytes = 2 * String.length panel
  /\ Forall (fun c => (32 < N_of_ascii c < 127)%N) (list_ascii_of_string panel).
Proof.
  unfold _ascii_bytes. destruct (unhexlify bytes) as [bs|] eqn:Hbs; [| discriminate].
  cbn [bind]. intros [= <-]. split.
  - rewrite length_string_of_list_ascii, length_map.
    apply (proj1 (unhexlify_length bytes)), Hbs.
  - rewrite list_ascii_of_string_of_list_ascii. apply Forall_map, Forall_forall.
    intros b _. apply ascii_char_visible.
Qed.

Lemma ascii_bytes_visible_witness :
  String.length "00417e20" = 2 * String.length ".A~."
  /\ Forall (fun c => (32 < N_of_ascii c < 127)%N) (list_ascii_of_string ".A~.").
Proof. apply (ascii_bytes_visible "00417e20" ".A~."). reflexivity. Defined.






(** ** The layout of the dump *)

Lemma length_join_uniform (sep : string) (m : nat) (l : list string) :
  Forall (fun s => String.length s = m) l ->
  String.length (join sep l) = length l * m + (length l - 1) * String.length sep.
Proof.
  induction 1 as [|s l Hs Hl IH]; [reflexivity |].
  destruct l as [|s' l].
  - cbn [join length]. lia.
  - change (join sep (s :: s' :: l)) with (s +:+ sep +:+ join sep (s' :: l)).
    rewrite !length_append, IH, Hs. cbn [length].
    rewrite !Nat.sub_succ, !Nat.sub_0_r. cbn [Nat.mul]. lia.
Qed.

Lemma row_panel_parts order (f : format_string) (line : list byte) :
  whole_cells f line ->
  Forall (fun s => String.length s = calcsize f)
         (map (fun c => panel_text (value_order order c))
              (chunks (calcsize f) (length line / calcsize f) line)).
Proof.
  intros Hwhole. apply Forall_map.
  eapply Forall_impl; [apply Forall_chunks_whole, Hwhole |].
  intros c Hc. cbn beta. now rewrite length_panel_text, length_value_order.
Qed.

(** X3. In every line of a dump the hexadecimal column is [31 + 16 / w]
    characters wide, short last row included, and sits four spaces after the
    label; the panel follows it after four more spaces and holds one
    character per byte of the row, plus one separating space between cells
    when the cells are wider than one byte (nothing when [ascii] is off). *)
Theorem display_data_columns (order : byteorder) (offset : Z) (data : list byte)
    (f : format_string) (ascii : bool) (k : nat) (line : string) :
  fst (_display_data order offset data f ascii) !! k = Some line ->
  let w := calcsize f in
  let row := take 16 (drop (16 * k) (truncated f data)) in
  exists hex_data panel,
    line = hex (offset + 16 * Z.of_nat k + 16) +:+ "    " +:+ hex_data +:+ "    " +:+ panel
    /\ String.length hex_data = 31 + 16 / w
    /\ String.length panel
       = if ascii then length row + (length row / w - 1) * String.length (connector w)
         else 0.
Proof.
  rewrite _display_data_rows. cbn [fst]. intros Hline.
  assert (k < (length (truncated f data) + 15) / 16) as Hk.
  { apply lookup_lt_Some in Hline. now rewrite length_rows_text in Hline. }
  rewrite rows_text_lookup in Hline by assumption. injection Hline as <-. cbn zeta.
  set (row := take 16 (drop (16 * k) (truncated f data))).
  pose proof (row_whole f data k) as Hwhole. fold row in Hwhole.
  exists (join " " (row_cells order f row ++ padding_data (calcsize f) row)),
         (row_panel order f ascii row).
  split; [reflexivity |]. split.
  - rewrite (length_join_uniform _ (2 * calcsize f)).
    + rewrite length_app, row_cell_count by assumption. cbn [String.length].
      destruct (calcsize_cases f) as [H|[H|[H|H]]]; rewrite H; reflexivity.
    + apply Forall_app. split; [apply row_cells_width, Hwhole |].
      eapply Forall_impl; [apply padding_data_spaces |].
      intros cell ->. apply length_str_repeat.
  - unfold row_panel. destruct ascii; [| reflexivity].
    rewrite (length_join_uniform _ (calcsize f)) by (apply row_panel_parts, Hwhole).
    rewrite length_map, length_chunks. destruct Hwhole as [Hmod _].
    destruct (calcsize_cases f) as [H|[H|[H|H]]]; rewrite H in *; lia.
Qed.

Lemma display_data_columns_witness :
  exists hex_data panel,
    "0x1020    5251 5453                                  RQ TS"
    = hex (4096 + 16 * Z.of_nat 1 + 16) +:+ "    " +:+ hex_data +:+ "    " +:+ panel
    /\ String.length hex_data = 31 + 16 / calcsize fmt_H
    /\ String.length panel
       = length (take 16 (drop (16 * 1) (truncated fmt_H dump_20_bytes)))
         + (length (take 16 (drop (16 * 1) (truncated fmt_H dump_20_bytes))) / calcsize fmt_H - 1)
           * String.length (connector (calcsize fmt_H)).
Proof.
  apply (display_data_columns little 4096 dump_20_bytes fmt_H true 1).
  vm_compute. reflexivity.
Defined.

(** X4. Bytes after the last whole element do not reach the output: a
    buffer of whole elements followed by fewer bytes than one element is
    dumped exactly as the buffer alone. *)
Theorem display_data_ignores_partial_element (order : byteorder) (offset : Z)
    (data extra : list byte) (f : format_string) (ascii : bool) :
  length data mod calcsize f = 0 ->
  length extra < calcsize f ->
  _display_data order offset (data ++ extra) f ascii
  = _display_data order offset data f ascii.
Proof.
  intros Hmod Hextra. unfold _display_data. f_equal.
  rewrite length_app.
  replace (length data + length extra - (length data + length extra) mod calcsize f)
    with (length data)
    by (destruct (calcsize_cases f) as [H|[H|[H|H]]]; rewrite H in *; lia).
  rewrite Hmod, Nat.sub_0_r, take_app_length. symmetry. apply take_ge. lia.
Qed.

Lemma display_data_ignores_partial_element_witness :
  _display_data little 4096 (example_data ++ [x42; x43; x44]) fmt_I true
  = _display_data little 4096 example_data fmt_I true.
Proof.
  apply (display_data_ignores_partial_element little 4096 example_data [x42; x43; x44]
           fmt_I true).
  - reflexivity.
  - simpl. lia.
Defined.

Lemma rows_text_app order f ascii (n m : nat) : forall (offset : Z) (a b : list byte),
  length a = 16 * m ->
  rows_text order f ascii (m + n) offset (a ++ b)
  = (rows_text order f ascii m offset a
     ++ rows_text order f ascii n (offset + 16 * Z.of_nat m) b)%list.
Proof.
  induction m as [|m IH]; intros offset a b Hlen.
  - destruct a; [| simpl in Hlen; lia]. cbn [rows_text app Nat.add].
    now rewrite Z.mul_0_r, Z.add_0_r.
  - cbn [Nat.add rows_text app].
    rewrite take_app_le, drop_app_le by lia.
    rewrite IH by (rewrite length_drop; lia).
    replace (offset + 16 + 16 * Z.of_nat m)%Z with (offset + 16 * Z.of_nat (S m))%Z by lia.
    reflexivity.
Qed.

(** X5. A dump can be cut at any row boundary: dumping [a ++ b], where [a]
    holds [m] full rows, prints the lines of dumping [a] at [offset]
    followed by the lines of dumping [b] at [offset + 16 * m]. *)
Theorem display_data_app (order : byteorder) (offset : Z) (a b : list byte)
    (f : format_string) (ascii : bool) (m : nat) :
  length a = 16 * m ->
  _display_data order offset (a ++ b) f ascii
  = ((fst (_display_data order offset a f ascii)
      ++ fst (_display_data order (offset + 16 * Z.of_nat m) b f ascii))%list, None).
Proof.
  intros Hlen. rewrite !_display_data_rows. cbn [fst]. f_equal.
  assert (truncated f a = a) as Ha.
  { unfold truncated. apply take_ge.
    destruct (calcsize_cases f) as [H|[H|[H|H]]]; rewrite H; lia. }
  assert (truncated f (a ++ b) = (a ++ truncated f b)%list) as Hab.
  { unfold truncated. rewrite length_app.
    replace (length a + length b - (length a + length b) mod calcsize f)
      with (length a + (length b - length b mod calcsize f))
      by (destruct (calcsize_cases f) as [H|[H|[H|H]]]; rewrite H in *; lia).
    apply take_app_add. }
  rewrite Ha, Hab, length_app.
  replace ((length a + length (truncated f b) + 15) / 16)
    with (m + (length (truncated f b) + 15) / 16) by lia.
  replace ((length a + 15) / 16) with m by lia.
  apply rows_text_app, Hlen.
Qed.

Lemma display_data_app_witness :
  _display_data little 4096 (example_data ++ [x42; x43; x44; x45]) fmt_I true
  = ((fst (_display_data little 4096 example_data fmt_I true)
      ++ fst (_display_data little (4096 + 16 * Z.of_nat 1) [x42; x43; x44; x45] fmt_I true))%list,
     None).
Proof.
  apply (display_data_app little 4096 example_data [x42; x43; x44; x45] fmt_I true 1).
  reflexivity.
Defined.

Lemma chunks_one_rev (q : nat) : forall line : list byte,
  Forall (fun c => rev c = c) (chunks 1 q line).
Proof.
  induction q as [|q IH]; intros line; cbn [chunks]; constructor; [| apply IH].
  destruct line; reflexivity.
Qed.

Lemma row_text_bytes (ascii : bool) (label : Z) (line : list byte) :
  row_text little fmt_B ascii label line = row_text big fmt_B ascii label line.
Proof.
  unfold row_text, row_cells, row_panel. cbn [calcsize].
  pose proof (chunks_one_rev (length line / 1) line) as Hrev.
  assert (map (fun c => hexlify (value_order little c)) (chunks 1 (length line / 1) line)
          = map (fun c => hexlify (value_order big c)) (chunks 1 (length line / 1) line)) as ->.
  { apply map_ext_Forall. eapply Forall_impl; [exact Hrev |].
    intros c Hc. cbn [value_order]. now rewrite Hc. }
  assert (map (fun c => panel_text (value_order little c)) (chunks 1 (length line / 1) line)
          = map (fun c => panel_text (value_order big c)) (chunks 1 (length line / 1) line)) as ->.
  { apply map_ext_Forall. eapply Forall_impl; [exact Hrev |].
    intros c Hc. cbn [value_order]. now rewrite Hc. }
  reflexivity.
Qed.

(** X6. The dump of single bytes does not depend on the byte order of the
    machine. *)
Theorem display_bytes_any_byteorder (offset : Z) (data : list byte) (ascii : bool) :
  _display_data little offset data fmt_B ascii = _display_data big offset data fmt_B ascii.
Proof.
  rewrite !_display_data_rows. f_equal.
  generalize ((length (truncated fmt_B data) + 15) / 16) as n.
  generalize (truncated fmt_B data) as kept. intros kept n. revert offset kept.
  induction n as [|n IH]; intros offset kept; [reflexivity |].
  cbn [rows_text]. now rewrite row_text_bytes, IH.
Qed.

(** X7. A dump prints nothing exactly when the buffer holds less than one
    element; it never raises. *)
Theorem display_data_empty_iff (order : byteorder) (offset : Z) (data : list byte)
    (f : format_string) (ascii : bool) :
  snd (_display_data order offset data f ascii) = None
  /\ (fst (_display_data order offset data f ascii) = [] <-> length data < calcsize f).
Proof.
  rewrite _display_data_rows. cbn [fst snd]. split; [reflexivity |].
  pose proof (length_rows_text order f ascii
                ((length (truncated f data) + 15) / 16) offset (truncated f data)) as Hlen.
  rewrite length_truncated in *.
  split.
  - intros Hnil. rewrite Hnil in Hlen. cbn [length] in Hlen.
    destruct (calcsize_cases f) as [H|[H|[H|H]]]; rewrite H in *; lia.
  - intros Hshort. apply length_zero_iff_nil. rewrite Hlen.
    destruct (calcsize_cases f) as [H|[H|[H|H]]]; rewrite H in *; lia.
Qed.

Lemma value_order_involutive (order : byteorder) (x : list byte) :
  value_order order (value_order order x) = x.
Proof. destruct order; cbn [value_order]; [apply rev_involutive | reflexivity]. Qed.

(** X8. The hexadecimal cells of a printed line lose nothing: [unhexlify]
    of each cell gives the bytes of the cell in the order of its digits, and
    putting them back in memory order gives exactly the bytes of the row. *)
Theorem display_data_lossless (order : byteorder) (offset : Z) (data : list byte)
    (f : format_string) (ascii : bool) (k : nat) (line : string) :
  fst (_display_data order offset data f ascii) !! k = Some line ->
  let row := take 16 (drop (16 * k) (truncated f data)) in
  exists valid panel decoded,
    line = print_line [hex (offset + 16 * Z.of_nat k + 16); "  ";
                       join " " (valid ++ padding_data (calcsize f) row); "  "; panel]
    /\ valid_data order f row = Ok valid
    /\ comprehension unhexlify valid = Ok decoded
    /\ concat (map (value_order order) decoded) = row.
Proof.
  rewrite _display_data_rows. cbn [fst]. intros Hline.
  assert (k < (length (truncated f data) + 15) / 16) as Hk.
  { apply lookup_lt_Some in Hline. now rewrite length_rows_text in Hline. }
  rewrite rows_text_lookup in Hline by assumption. injection Hline as <-. cbn zeta.
  set (row := take 16 (drop (16 * k) (truncated f data))).
  pose proof (row_whole f data k) as Hwhole. fold row in Hwhole.
  exists (row_cells order f row), (row_panel order f ascii row),
         (map (value_order order) (chunks (calcsize f) (length row / calcsize f) row)).
  split; [reflexivity |]. split; [apply valid_data_whole, Hwhole |]. split.
  - unfold row_cells.
    rewrite (comprehension_map _ (fun s => match unhexlify s with Ok b => b | Raise _ => [] end)).
    + rewrite map_map. f_equal. apply map_ext. intros c. now rewrite unhexlify_hexlify.
    + apply Forall_map, Forall_forall. intros c _. cbn beta. now rewrite unhexlify_hexlify.
  - rewrite map_map.
    rewrite (map_ext _ (fun c => c)) by (intros c; apply value_order_involutive).
    rewrite map_id. apply concat_chunks.
    destruct Hwhole as [Hmod _].
    destruct (calcsize_cases f) as [H|[H|[H|H]]]; rewrite H in *; lia.
Qed.

Lemma display_data_lossless_witness :
  exists valid panel decoded,
    "0x1020    5251 5453                                  RQ TS"
    = print_line [hex (4096 + 16 * Z.of_nat 1 + 16); "  ";
                  join " " (valid
                            ++ padding_data (calcsize fmt_H)
                                 (take 16 (drop (16 * 1) (truncated fmt_H dump_20_bytes))));
                  "  "; panel]
    /\ valid_data little fmt_H (take 16 (drop (16 * 1) (truncated fmt_H dump_20_bytes))) = Ok valid
    /\ comprehension unhexlify valid = Ok decoded
    /\ concat (map (value_order little) decoded)
       = take 16 (drop (16 * 1) (truncated fmt_H dump_20_bytes)).
Proof.
  apply (display_data_lossless little 4096 dump_20_bytes fmt_H true 1).
  vm_compute. reflexivity.
Defined.

(** ** Reads, switches and the session *)

Lemma exec_frame (c : command) (self : session) : same_environment self (fst (exec c self)).
Proof. destruct c; repeat split. Qed.

Lemma exec_all_frame (cs : list command) : forall self : session,
  same_environment self (exec_all cs self).
Proof.
  induction cs as [|c cs IH]; intros self; [repeat split |].
  unfold exec_all in *. cbn [fold_left].
  destruct (exec_frame c self) as (H1 & H2 & H3 & H4).
  destruct (IH (fst (exec c self))) as (H1' & H2' & H3' & H4').
  repeat split; congruence.
Qed.

(** X9. When the read of a command fails, the command prints nothing and
    raises the exception of the read, and [disassemble] does so whether or
    not capstone is present. The read fails in three ways only:
    [AttributeError] when no layer is named and the current layer is unset,
    [KeyError] of the resolved name when there is no such layer, or the
    exception of the layer's own [read]. *)
Theorem read_failure (self : session) (offset count : Z) (layer_name architecture : option string)
    (f : format_string) (e : exn) :
  _read_data self offset count layer_name = Raise e ->
  ((_current_layer self = None /\ layer_or_current self layer_name = Raise AttributeError
    /\ e = AttributeError)
   \/ (exists name, layer_or_current self layer_name = Ok name
                    /\ layers self !! name = None /\ e = KeyError name)
   \/ (exists name l, layer_or_current self layer_name = Ok name
                      /\ layers self !! name = Some l /\ read l offset count = Raise e))
  /\ display f self offset count layer_name = ([], Some e)
  /\ disassemble self offset count layer_name architecture = ([], Some e).
Proof.
  intros Hread. split; [| split].
  - unfold _read_data, get_layer in Hread.
    destruct (layer_or_current self layer_name) as [name|e'] eqn:Hname.
    + right. cbn [bind] in Hread. destruct (layers self !! name) as [l|] eqn:Hl.
      * right. exists name, l. auto.
      * left. injection Hread as <-. exists name. auto.
    + left. cbn [bind] in Hread. injection Hread as <-.
      unfold layer_or_current, current_layer in Hname.
      destruct layer_name as [[|c rest]|]; destruct (_current_layer self);
        try discriminate; injection Hname as <-; auto.
  - unfold display. now rewrite Hread.
  - unfold disassemble. now rewrite Hread.
Qed.

Lemma read_failure_witness :
  ((_current_layer (example_session None) = None
    /\ layer_or_current (example_session None) (Some "swap") = Raise AttributeError
    /\ KeyError "swap" = AttributeError)
   \/ (exists name, layer_or_current (example_session None) (Some "swap") = Ok name
                    /\ layers (example_session None) !! name = None
                    /\ KeyError "swap" = KeyError name)
   \/ (exists name l, layer_or_current (example_session None) (Some "swap") = Ok name
                      /\ layers (example_session None) !! name = Some l
                      /\ read l 0 16 = Raise (KeyError "swap")))
  /\ display fmt_Q (example_session None) 0 16 (Some "swap") = ([], Some (KeyError "swap"))
  /\ disassemble (example_session None) 0 16 (Some "swap") (Some "arm")
     = ([], Some (KeyError "swap")).
Proof.
  apply (read_failure (example_session None) 0 16 (Some "swap") (Some "arm") fmt_Q).
  reflexivity.
Defined.

(** X10. A command given a non-empty layer name does not depend on the
    current layer: whatever commands ran before, switches included, and even
    on a session whose current layer was never set, it reads, prints and
    raises the same. *)
Theorem explicit_layer_ignores_history (self : session) (cs : list command) (name : string)
    (offset count : Z) (f : format_string) (architecture : option string) :
  name <> "" ->
  _read_data (exec_all cs self) offset count (Some name)
  = _read_data self offset count (Some name)
  /\ display f (exec_all cs self) offset count (Some name)
     = display f self offset count (Some name)
  /\ disassemble (exec_all cs self) offset count (Some name) architecture
     = disassemble self offset count (Some name) architecture.
Proof.
  intros Hname. destruct name as [|c rest]; [contradiction |].
  destruct (exec_all_frame cs self) as (Hbo & Hcs & _ & Hlayers).
  assert (_read_data (exec_all cs self) offset count (Some (String c rest))
          = _read_data self offset count (Some (String c rest))) as Hread.
  { unfold _read_data, get_layer. cbn [layer_or_current bind]. now rewrite Hlayers. }
  split; [exact Hread |]. split.
  - unfold display. now rewrite Hread, Hbo.
  - unfold disassemble, get_layer. cbn [layer_or_current bind].
    now rewrite Hread, Hcs, Hlayers.
Qed.

Lemma explicit_layer_ignores_history_witness :
  _read_data (exec_all [cl (Some "file"); db 0 16 None; cl None] (example_session None))
    4096 2 (Some "primary")
  = _read_data (example_session None) 4096 2 (Some "primary")
  /\ display fmt_H (exec_all [cl (Some "file"); db 0 16 None; cl None] (example_session None))
       4096 2 (Some "primary")
     = display fmt_H (example_session None) 4096 2 (Some "primary")
  /\ disassemble (exec_all [cl (Some "file"); db 0 16 None; cl None] (example_session None))
       4096 2 (Some "primary") None
     = disassemble (example_session None) 4096 2 (Some "primary") None.
Proof.
  apply (explicit_layer_ignores_history (example_session None)
           [cl (Some "file"); db 0 16 None; cl None] "primary" 4096 2 fmt_H None).
  discriminate.
Defined.

Lemma exec_all_snoc (cs : list command) (c : command) (self : session) :
  exec_all (cs ++ [c]) self = fst (exec c (exec_all cs self)).
Proof. unfold exec_all. now rewrite fold_left_app. Qed.

(** X11. After [run] has set the current layer, and whatever commands
    follow, the current layer is always set (reading it never raises), the
    prompt shows it, it is the configured primary layer or a non-empty name,
    and the byte order, the decoder, the configuration and the layers are
    those of the start. *)
Theorem session_invariant (self : session) (cs : list command) :
  exists name,
    current_layer (exec_all cs (run_start self)) = Ok name
    /\ ps1 (exec_all cs (run_start self)) = prompt name
    /\ (name = config_primary self \/ name <> "")
    /\ same_environment self (exec_all cs (run_start self)).
Proof.
  induction cs as [|c cs (name & Hcur & Hps & Hname & Henv)] using rev_ind.
  - exists (config_primary self). repeat split. now left.
  - rewrite exec_all_snoc.
    set (s := exec_all cs (run_start self)) in *.
    assert (same_environment self (fst (exec c s))) as Henv'.
    { destruct Henv as (H1 & H2 & H3 & H4).
      destruct (exec_frame c s) as (H1' & H2' & H3' & H4'). repeat split; congruence. }
    destruct c as [[[|a rest]|]| | | | | |];
      try (exists name; repeat split; [exact Hcur | exact Hps | exact Hname | apply Henv' ..]).
    + exists (config_primary self). destruct Henv as (_ & _ & Hprimary & _).
      unfold current_layer. cbn. rewrite Hprimary. repeat split; try apply Henv'. now left.
    + exists (String a rest). repeat split; try apply Henv'. now right.
    + exists (config_primary self). destruct Henv as (_ & _ & Hprimary & _).
      unfold current_layer. cbn. rewrite Hprimary. repeat split; try apply Henv'. now left.
Qed.

(** X12. The session after a switch depends on that switch only: whatever
    commands ran before it, the session is the one the switch alone gives. *)
Theorem last_switch_wins (self : session) (cs : list command) (layer_name : option string) :
  exec_all (cs ++ [cl layer_name]) self = change_layer layer_name self.
Proof.
  rewrite exec_all_snoc. cbn [exec fst].
  destruct (exec_all_frame cs self) as (H1 & H2 & H3 & H4).
  unfold change_layer. now rewrite H1, H2, H3, H4.
Qed.

(** ** Architecture names *)

(** X13. On a layer that is no Intel layer, with capstone present and the
    read done, the four names intel, intel64, arm and arm64 select a decode
    mode and the lines printed are those of its instructions; any other name
    prints nothing and raises [KeyError] of that name. *)
Theorem disassemble_architecture_names (self : session) (cs : decoder) (offset count : Z)
    (layer_name : option string) (a name : string) (l : layer) (data : list byte) :
  capstone self = Some cs ->
  layer_or_current self layer_name = Ok name ->
  layers self !! name = Some l ->
  layer_type l = NonIntel ->
  read l offset count = Ok data ->
  if bool_decide (In a ["intel"; "intel64"; "arm"; "arm64"]) then
    exists md, disasm_types !! a = Some md
               /\ disassemble self offset count layer_name (Some a)
                  = (map insn_line (cs md data offset), None)
  else disassemble self offset count layer_name (Some a) = ([], Some (KeyError a)).
Proof.
  intros Hcs Hname Hl Hclass Hread.
  rewrite (disassemble_found _ _ _ _ _ _ _ _ _ Hcs Hname Hl Hread), Hclass.
  cbn [resolve_architecture]. case_bool_decide as Hin.
  - cbn [In] in Hin. destruct Hin as [H|[H|[H|[H|[]]]]]; subst a; eexists; split; reflexivity.
  - cbn [In] in Hin. unfold disasm_types.
    rewrite !lookup_insert_ne, lookup_empty by tauto.
    reflexivity.
Qed.

Lemma disassemble_architecture_names_witness :
  disassemble (example_session (Some mode_decoder)) 0 2 (Some "file") (Some "mips")
  = ([], Some (KeyError "mips")).
Proof.
  apply (disassemble_architecture_names (example_session (Some mode_decoder)) mode_decoder
           0 2 (Some "file") "mips" "file" (nop_layer NonIntel) [x90; x90]);
    reflexivity.
Defined.

(** ** The columns of the type inspector *)

Lemma display_type_lines (members : members_dict) :
  NoDup (map fst members) ->
  display_type members
  = (map (aligned_line (list_max (map name_length members))
                       (list_max (map offset_length members))) members, None).
Proof.
  intros Hnodup.
  assert (Forall (fun m => dict_get members (fst m) = Ok (snd m)) members) as Hget.
  { apply List.Forall_forall. intros [member v] Hin. now apply dict_get_entry. }
  unfold display_type. rewrite longest_entries by assumption. cbn [fst snd].
  rewrite !Nat.max_0_r. rewrite member_lines_entries by assumption. reflexivity.
Qed.

(** X14. In the output of [display_type] every line starts with a space and
    the type name starts at the same position on every line:
    [longest_offset + longest_member + 10] characters come before it. *)
Theorem display_type_type_column (members : members_dict) :
  NoDup (map fst members) ->
  let longest_member := list_max (map name_length members) in
  let longest_offset := list_max (map offset_length members) in
  snd (display_type members) = None
  /\ Forall2
       (fun m line =>
          exists before,
            line = before +:+ snd (snd m)
            /\ String.length before = longest_offset + longest_member + 10
            /\ String.get 0 line = Some " "%char)
       members (fst (display_type members)).
Proof.
  intros Hnodup. cbn zeta. rewrite display_type_lines by assumption. cbn [fst snd].
  split; [reflexivity |].
  apply Forall2_fmap_r, Forall_Forall2_diag, List.Forall_forall. intros m Hin.
  assert (name_length m <= list_max (map name_length members)) as Hname
    by (apply list_max_bound, in_map, Hin).
  assert (offset_length m <= list_max (map offset_length members)) as Hoff
    by (apply list_max_bound, in_map, Hin).
  set (lm := list_max (map name_length members)) in *.
  set (lo := list_max (map offset_length members)) in *.
  exists (str_repeat " " (lo - offset_length m) +:+ " " +:+ hex (fst (snd m))
          +:+ " " +:+ tab +:+ tab +:+ " "
          +:+ fst m +:+ " " +:+ str_repeat " " (lm - name_length m)
          +:+ " " +:+ tab +:+ tab +:+ " ").
  split; [| split].
  - unfold aligned_line. now rewrite !append_assoc.
  - rewrite !length_append, !length_str_repeat.
    fold (offset_length m) (name_length m). cbn [String.length tab]. lia.
  - unfold aligned_line. destruct (lo - offset_length m); reflexivity.
Qed.

Lemma display_type_type_column_witness :
  snd (display_type example_members) = None
  /\ Forall2
       (fun m line =>
          exists before,
            line = before +:+ snd (snd m)
            /\ String.length before
               = list_max (map offset_length example_members)
                 + list_max (map name_length example_members) + 10
            /\ String.get 0 line = Some " "%char)
       example_members (fst (display_type example_members)).
Proof.
  apply (display_type_type_column example_members).
  apply (bool_decide_unpack _). vm_compute. exact I.
Defined.

(** ** The help command *)

Lemma help_methods_sections (locals : list (string * item)) : forall variables,
  help_methods locals variables
  = (flat_map (fun p => ["* " +:+ fst p; "    " +:+ doc_text (snd p)])
       (List.filter (fun p => documented (snd p) && callable (snd p)) locals),
     (variables
      ++ map fst (List.filter (fun p => negb (documented (snd p) && callable (snd p))) locals))%list).
Proof.
  induction locals as [|[name i] locals IH]; intros variables.
  - cbn. now rewrite app_nil_r.
  - cbn [help_methods List.filter fst snd].
    destruct (documented i && callable i); cbn [negb].
    + rewrite IH. reflexivity.
    + rewrite IH. cbn [map fst]. now rewrite <- app_assoc.
Qed.

Lemma help_unfold (locals : list (string * item)) :
  help locals
  = (newline +:+ "Methods:")
    :: (flat_map (fun p => ["* " +:+ fst p; "    " +:+ doc_text (snd p)])
          (List.filter (fun p => documented (snd p) && callable (snd p)) locals)
        ++ (newline +:+ "Variables:")
           :: map (fun p => "  " +:+ fst p)
                (List.filter (fun p => negb (documented (snd p) && callable (snd p)))
                   locals))%list.
Proof.
  unfold help. rewrite help_methods_sections. cbn [fst snd app]. now rewrite map_map.
Qed.

(** X15. [help] prints the header of the methods, then for every name of
    the environment that is documented and callable its name and its
    docstring, in the order of the environment, then the header of the
    variables and every other name, in the order of the environment: each
    name is printed in exactly one of the two parts, and the number of lines
    is two, plus one per name, plus one per method. *)
Theorem help_sections (locals : list (string * item)) :
  let is_method := fun p : string * item => documented (snd p) && callable (snd p) in
  help locals
  = ([newline +:+ "Methods:"]
     ++ flat_map (fun p => ["* " +:+ fst p; "    " +:+ doc_text (snd p)])
          (List.filter is_method locals)
     ++ [newline +:+ "Variables:"]
     ++ map (fun p => "  " +:+ fst p) (List.filter (fun p => negb (is_method p)) locals))%list
  /\ length (help locals) = 2 + length locals + length (List.filter is_method locals).
Proof.
  cbn zeta. split; [apply help_unfold |].
  rewrite help_unfold.
  induction locals as [|[name i] locals IH]; [reflexivity |].
  cbn [List.filter fst snd]. destruct (documented i && callable i); cbn [negb].
  - cbn [flat_map app length] in *. rewrite !length_app in *. cbn [length] in *. lia.
  - cbn [flat_map app length map] in *. rewrite !length_app in *. cbn [length map] in *. lia.
Qed.

Lemma help_method_listed (locals : list (string * item)) (name : string) (i : item) :
  In (name, i) locals -> documented i && callable i = true ->
  In ("* " +:+ name) (help locals).
Proof.
  intros Hin Hmethod. rewrite help_unfold. right. apply in_or_app. left.
  apply in_flat_map. exists (name, i). split; [| now left].
  apply filter_In. split; [exact Hin | exact Hmethod].
Qed.

Lemma help_variable_listed (locals : list (string * item)) (name : string) (i : item) :
  In (name, i) locals -> documented i && callable i = false ->
  In ("  " +:+ name) (help locals).
Proof.
  intros Hin Hvariable. rewrite help_unfold. right. apply in_or_app. right. right.
  apply in_map_iff. exists (name, i). split; [reflexivity |].
  apply filter_In. split; [exact Hin |]. cbn [snd]. now rewrite Hvariable.
Qed.

Ltac find_entry := cbn [In]; repeat first [left; reflexivity | right].

(** X16. Whatever the context object is and whether or not the plugin
    object is callable, [help] on the environment of [construct_locals]
    lists each of the sixteen command names, short and long, among the
    methods, and lists [context] and [self] among the variables when they
    are not callable. *)
Theorem help_lists_commands (context : item) (self_callable : bool) :
  Forall (fun name => In ("* " +:+ name) (help (construct_locals context self_callable)))
    ["dt"; "display_type"; "db"; "display_bytes"; "dw"; "display_words";
     "dd"; "display_doublewords"; "dq"; "display_quadwords"; "dis"; "disassemble";
     "cl"; "change_layer"; "hh"; "help"]
  /\ (callable context = false ->
      In "  context" (help (construct_locals context self_callable)))
  /\ (self_callable = false ->
      In "  self" (help (construct_locals context self_callable))).
Proof.
  split; [| split].
  - repeat (apply List.Forall_cons;
            [eapply help_method_listed; [unfold construct_locals; find_entry | reflexivity] |]).
    apply List.Forall_nil.
  - intros Hcallable.
    apply (help_variable_listed _ "context" context);
      [unfold construct_locals; find_entry | now rewrite Hcallable, andb_false_r].
  - intros ->.
    eapply (help_variable_listed _ "self"); [unfold construct_locals; find_entry | reflexivity].
Qed.
